(** * Verification of the batched invite mailer

    A shallow embedding of the command-line scripts [send.ts],
    [send-followup.ts] and the launch announcement script.  The three
    scripts share their control flow verbatim and differ only in the
    literals of the message template and of one console notice; the
    embedding follows [send.ts] and takes those literals from a [Script]
    record, of which each source file is an instance.

    Numbers: every number the scripts compute is a list length, a page
    index or a sum of list lengths, all non-negative integers far below
    2^53, where IEEE double arithmetic is exact.  They are modelled by
    [nat]. *)

From Stdlib Require Import String Ascii DecimalString List Arith PeanoNat Lia Bool.
From Stdlib Require DecimalFacts DecimalNat.
Import ListNotations.
Local Open Scope string_scope.
Local Open Scope nat_scope.
Local Open Scope list_scope.

(** ** JavaScript primitives used by the scripts *)

Module Js.

(** [`${n}`] for a non-negative integer [n]: its decimal digits. *)
Definition toString (n : nat) : string :=
  NilZero.string_of_uint (Nat.to_uint n).

(** Truthiness of an optional string property: [undefined] and the
    empty string are falsy, every other string is truthy. *)
Definition truthy (s : option string) : bool :=
  match s with
  | None => false
  | Some EmptyString => false
  | Some (String _ _) => true
  end.

(** [arr.slice(start, end)] for non-negative integer arguments: both
    bounds are clamped to the length, the elements at the indices
    [start .. end-1] are copied. *)
Definition slice {A : Type} (arr : list A) (start end_ : nat) : list A :=
  let len := List.length arr in
  let k := Nat.min start len in
  let final := Nat.min end_ len in
  firstn (final - k) (skipn k arr).

(** [Math.floor(a / b)] on non-negative integers, [b > 0]. *)
Definition floor_div (a b : nat) : nat := a / b.

(** [Math.ceil(a / b)] on non-negative integers, [b > 0]: the quotient,
    plus one when the division leaves a remainder. *)
Definition ceil_div (a b : nat) : nat :=
  if a mod b =? 0 then a / b else a / b + 1.

(** [argv.includes(flag)] *)
Definition includes (argv : list string) (flag : string) : bool :=
  existsb (String.eqb flag) argv.

(** A template literal: the concatenation of its pieces. *)
Definition template (pieces : list string) : string :=
  String.concat EmptyString pieces.

Definition dq : string := String "034"%char EmptyString.
Definition nl : string := String "010"%char EmptyString.

End Js.
Import Js.

(** ** Data *)

(** The object literal returned by [buildEmail]. *)
Record Message : Type := mkMessage
  { from : string;
    to : string;
    subject : string;
    html : string }.

(** A user record of the directory; only its optional [email] is read. *)
Record User : Type := mkUser
  { email : option string }.

(** The [error] member of a response of either service. *)
Record ServiceError : Type := mkServiceError
  { error_message : string }.

(** A thrown value: an [Error] object with its [message]. *)
Record JsError : Type := mkJsError
  { message : string }.

(** [{ data: { users }, error }] as [supabase.auth.admin.listUsers]
    resolves it.  [users] may be missing, which the script tests. *)
Record ListUsersResponse : Type := mkListUsersResponse
  { users : option (list User);
    list_error : option ServiceError }.

(** [{ data, error }] as [resend.batch.send] resolves it; [data] carries
    the identifiers the service assigned and is never read. *)
Record BatchResponse : Type := mkBatchResponse
  { data : option (list string);
    send_error : option ServiceError }.

(** What awaiting a promise of an external service yields. *)
Inductive Settled (A : Type) : Type :=
| Resolved (a : A)
| Rejected (e : JsError).
Arguments Resolved {A} a.
Arguments Rejected {A} e.

(** The counters [{ sent, failed }] returned by [sendBatches]. *)
Record Counters : Type := mkCounters
  { sent : nat;
    failed : nat }.

(** The literals in which the three scripts differ. *)
Record Script : Type := mkScript
  { subject_line : string;
    html_body : string;
    no_emails_notice : string }.

(** [send.ts]: the invitation. *)
Definition send_ts_html : string :=
  String.concat nl
    [ EmptyString;
      ("      <div style=" ++ dq ++ "font-family: sans-serif; max-width: 600px; margin: 0 auto; padding: 40px 20px; line-height: 1.7; color: #333;" ++ dq ++ ">")%string;
      "        <p>hey sup! you might remember me from sprint.dev or such. i'm emailing you with an invite to the invite-only discord for people who have gone to hackathons or shipped projects.</p>";
      "        <p>btw if you are receiving this email, at some point i have personally reviewed your profile!</p>";
      "        <p>this link is only for you. do not share, as we are keeping the quality of the discord members high (unless you are referring someone actively building projects)</p>";
      ("        <p>if you want to share with someone who's actively building, here's the link as text: <a href=" ++ dq ++ "https://discord.gg/5sdGUP4pG5" ++ dq ++ ">https://discord.gg/5sdGUP4pG5</a></p>")%string;
      ("        <a href=" ++ dq ++ "https://discord.gg/5sdGUP4pG5" ++ dq)%string;
      ("           style=" ++ dq ++ "display: inline-block; background: #5865F2; color: white; padding: 14px 28px;")%string;
      ("                  border-radius: 8px; text-decoration: none; font-weight: bold; font-size: 16px; margin: 8px 0 16px;" ++ dq ++ ">")%string;
      "          join the discord";
      "        </a>";
      "        <p>okay bai. p.s. there are founders of companies you know in the discord which you may see around</p>";
      "      </div>";
      "    " ].

Definition send_ts : Script :=
  {| subject_line := "hi from jia :3";
     html_body := send_ts_html;
     no_emails_notice := "No emails found. Check your table/column names in the script." |}.

(** [send-followup.ts]: the follow-up. *)
Definition send_followup_ts_html : string :=
  String.concat nl
    [ EmptyString;
      ("      <div style=" ++ dq ++ "font-family: sans-serif; max-width: 600px; margin: 0 auto; padding: 40px 20px; line-height: 1.7; color: #333;" ++ dq ++ ">")%string;
      "        <p>also let me know what you're working on so i can star ur github or comment and like your posts.</p>";
      "        <p>and updates on my end i built a product with my friend mal that helps developers get users on their projects. we're starting to roll out beta users (limited time free) first come first serve. we launch in 5 days!</p>";
      ("        <a href=" ++ dq ++ "https://www.spreadjam.com/" ++ dq)%string;
      ("           style=" ++ dq ++ "display: inline-block; background: #333; color: white; padding: 14px 28px;")%string;
      ("                  border-radius: 8px; text-decoration: none; font-weight: bold; font-size: 16px; margin: 8px 0 16px;" ++ dq ++ ">")%string;
      "          join the limited beta";
      "        </a>";
      ("        <p><a href=" ++ dq ++ "https://www.spreadjam.com/" ++ dq ++ ">https://www.spreadjam.com/</a></p>")%string;
      "        <p>if you want to be featured in our launch video in 5 days, send a picture (or 5 sec video) of your project or you to this email as well as which country you are from</p>";
      ("        <p>p.s. say " ++ dq ++ "bread" ++ dq ++ " in the #bread-thread channel in discord</p>")%string;
      "      </div>";
      "    " ].

Definition send_followup_ts : Script :=
  {| subject_line := "also i can help star ur githubs or like ur projects (i will personally do it)";
     html_body := send_followup_ts_html;
     no_emails_notice := "No emails found." |}.

(** The third script (its file name is not recorded): the launch announcement. *)
Definition send_launch_ts_html : string :=
  String.concat nl
    [ EmptyString;
      ("      <div style=" ++ dq ++ "font-family: sans-serif; max-width: 600px; margin: 0 auto; padding: 40px 20px; line-height: 1.7; color: #333;" ++ dq ++ ">")%string;
      "        <p>hiyo it's human jia it's actually me not ai lmfao. we just launched!</p>";
      "        <p>the last 7 days before launch has been like a hackathon and this is the defining moment. would mean a lot if u like, comment, share with your friends, and repost this video on X/twitter (if you want lol). also, hope u enjoy the product!</p>";
      ("        <a href=" ++ dq ++ "https://x.com/jia_seed/status/2022761948753117393?s=20" ++ dq ++ " style=" ++ dq ++ "display: block; position: relative; border-radius: 12px; overflow: hidden; margin: 8px 0 16px; text-decoration: none;" ++ dq ++ ">")%string;
      ("          <img src=" ++ dq ++ "https://ubqlwxvulcdueuteajfb.supabase.co/storage/v1/object/public/assets/jam.png" ++ dq ++ " alt=" ++ dq ++ "SpreadJam launch video" ++ dq ++ " style=" ++ dq ++ "display: block; width: 100%; border-radius: 12px;" ++ dq ++ " />")%string;
      ("          <div style=" ++ dq ++ "position: absolute; top: 50%; left: 50%; transform: translate(-50%, -50%); width: 60px; height: 60px; background: rgba(0,0,0,0.6); border-radius: 50%; display: flex; align-items: center; justify-content: center;" ++ dq ++ ">")%string;
      ("            <div style=" ++ dq ++ "width: 0; height: 0; border-top: 12px solid transparent; border-bottom: 12px solid transparent; border-left: 20px solid white; margin-left: 4px;" ++ dq ++ "></div>")%string;
      "          </div>";
      "        </a>";
      ("        <p><a href=" ++ dq ++ "https://x.com/jia_seed/status/2022761948753117393?s=20" ++ dq ++ ">https://x.com/jia_seed/status/2022761948753117393</a> (link to share with your friends or date)</p>")%string;
      "        <p>also happy valentine's day! best of luck to fellow cs ppl today...</p>";
      "      </div>";
      "    " ].

Definition send_launch_ts : Script :=
  {| subject_line := "it's jia hi we launched jam (backed by co-founder lovable and co-founder hugging face)";
     html_body := send_launch_ts_html;
     no_emails_notice := "No emails found." |}.

(** ** Observable behaviour and the effect monad *)

(** What a run does to the outside world, in the order it happens. *)
Inductive Event : Type :=
| Stdout (line : string)                     (* console.log(line) *)
| Stderr (line : string)                     (* console.error(line) *)
| StderrError (label : string) (err : JsError) (* console.error(label, err) *)
| ListUsers (page perPage : nat)             (* supabase.auth.admin.listUsers *)
| BatchSend (messages : list Message)        (* resend.batch.send *)
| Pause (ms : nat)                           (* setTimeout(r, ms), awaited *)
| Exit (code : nat).                         (* process.exit(code) *)

Definition History : Type := list Event.

(** How a statement or an awaited call completes.  [Running] is the
    completion of a loop whose iteration budget is used up: the script
    would still be running. *)
Inductive Completion (A : Type) : Type :=
| Normal (a : A)
| Throw (e : JsError)
| Running.
Arguments Normal {A} a.
Arguments Throw {A} e.
Arguments Running {A}.

(** An asynchronous computation: from the history so far to a completion
    and the extended history. *)
Definition Task (A : Type) : Type := History -> Completion A * History.

Definition ret {A : Type} (a : A) : Task A :=
  fun h => (Normal a, h).

Definition bind {A B : Type} (m : Task A) (k : A -> Task B) : Task B :=
  fun h =>
    match m h with
    | (Normal a, h') => k a h'
    | (Throw e, h') => (Throw e, h')
    | (Running, h') => (Running, h')
    end.

Definition throw {A : Type} (e : JsError) : Task A :=
  fun h => (Throw e, h).

Definition running {A : Type} : Task A :=
  fun h => (Running, h).

(** [try { body } catch (err) { handler }] *)
Definition try_catch {A : Type} (body : Task A) (handler : JsError -> Task A)
  : Task A :=
  fun h =>
    match body h with
    | (Throw e, h') => handler e h'
    | r => r
    end.

Definition emit (e : Event) : Task unit :=
  fun h => (Normal tt, h ++ [e]).

Declare Scope task_scope.
Delimit Scope task_scope with task.
Notation "x <- m ;; k" := (bind m (fun x => k))
  (at level 61, m at next level, right associativity) : task_scope.
Notation "m ;; k" := (bind m (fun _ => k))
  (at level 61, right associativity) : task_scope.

Definition console_log (line : string) : Task unit := emit (Stdout line).
Definition console_error (line : string) : Task unit := emit (Stderr line).

(** [await new Promise((r) => setTimeout(r, ms))] *)
Definition setTimeout (ms : nat) : Task unit := emit (Pause ms).

(** [for (let i = start; i < bound; i += step) body], the loop variable
    and the variables the body assigns threaded as [i] and [s].  The
    budget bounds the number of iterations. *)
Fixpoint for_lt {State : Type} (budget i bound step : nat)
    (body : nat -> State -> Task State) (s : State) : Task State :=
  if i <? bound then
    match budget with
    | O => running
    | S budget' =>
        (s' <- body i s ;;
         for_lt budget' (i + step) bound step body s')%task
    end
  else ret s.

(** Number of [resend.batch.send] calls made so far. *)
Definition is_BatchSend (e : Event) : bool :=
  match e with BatchSend _ => true | _ => false end.

Definition calls_before (h : History) : nat :=
  List.length (filter is_BatchSend h).

Definition is_Pause (e : Event) : bool :=
  match e with Pause _ => true | _ => false end.

Definition is_ListUsers (e : Event) : bool :=
  match e with ListUsers _ _ => true | _ => false end.

Definition is_Stdout (e : Event) : bool :=
  match e with Stdout _ => true | _ => false end.

(** The calls to the outside and the pauses of a history, console
    output left out. *)
Definition is_action (e : Event) : bool :=
  is_BatchSend e || is_Pause e || is_ListUsers e.

Definition is_Stderr (e : Event) : bool :=
  match e with Stderr _ => true | _ => false end.

(** The messages an event hands to the sender. *)
Definition submitted (e : Event) : list Message :=
  match e with
  | BatchSend messages => messages
  | _ => []
  end.

(** ** Scenarios

    Concrete command lines, directories and senders, on which the
    statements below are exercised. *)

Definition node_argv : list string := ["node"; "send.ts"].
Definition dry_run_argv : list string := ["node"; "send.ts"; "--dry-run"].
Definition sender_address : string := "jia@example.com".

Definition recipients_250 : list string := repeat "dev@example.com" 250.

(** A sender that accepts every batch. *)
Definition accepting_sender (n : nat) (messages : list Message)
  : Settled BatchResponse :=
  Resolved {| data := Some []; send_error := None |}.

(** A sender that answers its second call with an error result. *)
Definition sender_refusing_second_call (n : nat) (messages : list Message)
  : Settled BatchResponse :=
  match n with
  | 1 => Resolved {| data := None;
                     send_error := Some {| error_message := "rate limit exceeded" |} |}
  | _ => Resolved {| data := Some []; send_error := None |}
  end.

(** A sender whose first call fails with a fault instead of a result. *)
Definition sender_rejecting_first_call (n : nat) (messages : list Message)
  : Settled BatchResponse :=
  match n with
  | 0 => Rejected {| message := "socket hang up" |}
  | _ => Resolved {| data := Some []; send_error := None |}
  end.

(** A directory of a single short page. *)
Definition small_directory (page perPage : nat) : Settled ListUsersResponse :=
  Resolved {| users := Some [ {| email := Some "ada@example.com" |};
                              {| email := None |};
                              {| email := Some "lin@example.com" |} ];
              list_error := None |}.

(** A directory without users. *)
Definition empty_directory (page perPage : nat) : Settled ListUsersResponse :=
  Resolved {| users := Some []; list_error := None |}.

Definition full_page : ListUsersResponse :=
  {| users := Some (repeat {| email := Some "dev@example.com" |} 1000);
     list_error := None |}.

Definition short_page : ListUsersResponse :=
  {| users := Some [ {| email := Some "ada@example.com" |};
                     {| email := None |};
                     {| email := Some EmptyString |};
                     {| email := Some "lin@example.com" |} ];
     list_error := None |}.

Definition failed_page : ListUsersResponse :=
  {| users := Some [];
     list_error := Some {| error_message := "upstream timeout" |} |}.

(** A directory of one full page and a short one. *)
Definition two_page_directory (page perPage : nat) : Settled ListUsersResponse :=
  match page with
  | 1 => Resolved full_page
  | _ => Resolved short_page
  end.

(** A directory that never runs out of full pages. *)
Definition endless_directory (page perPage : nat) : Settled ListUsersResponse :=
  Resolved full_page.

(** A directory whose second request fails with a fault, not a result. *)
Definition directory_rejecting_page_2 (page perPage : nat)
  : Settled ListUsersResponse :=
  match page with
  | 1 => Resolved full_page
  | _ => Rejected {| message := "fetch failed" |}
  end.

(** A sender that refuses every batch. *)
Definition refusing_sender (n : nat) (messages : list Message)
  : Settled BatchResponse :=
  Resolved {| data := None;
              send_error := Some {| error_message := "quota exceeded" |} |}.

(** A directory whose third page fails. *)
Definition directory_failing_at_page_3 (page perPage : nat)
  : Settled ListUsersResponse :=
  match page with
  | 1 => Resolved full_page
  | 2 => Resolved full_page
  | _ => Resolved failed_page
  end.

(** ** The script *)

Section Script.

(** [process.argv] and [process.env.FROM_EMAIL]. *)
Variable argv : list string.
Variable FROM_EMAIL : string.

(** The template literals of the script at hand. *)
Variable script : Script.

(** The directory service: what the request for [page] with [perPage]
    settles to.  The script requests no page twice, so a function of
    the page index stands for any sequence of pages. *)
Variable supabase_listUsers : nat -> nat -> Settled ListUsersResponse.

(** The sender service: what the [n]-th call of the run (counting from
    zero) settles to, given the messages submitted. *)
Variable resend_batch_send : nat -> list Message -> Settled BatchResponse.

Definition BATCH_SIZE : nat := 100.
Definition DELAY_BETWEEN_BATCHES_MS : nat := 1000.
Definition DRY_RUN : bool := includes argv "--dry-run".

Definition await_listUsers (page perPage : nat) : Task ListUsersResponse :=
  fun h =>
    let h' := h ++ [ListUsers page perPage] in
    match supabase_listUsers page perPage with
    | Resolved r => (Normal r, h')
    | Rejected e => (Throw e, h')
    end.

Definition await_batch_send (messages : list Message) : Task BatchResponse :=
  fun h =>
    let h' := h ++ [BatchSend messages] in
    match resend_batch_send (calls_before h) messages with
    | Resolved r => (Normal r, h')
    | Rejected e => (Throw e, h')
    end.

(** *** Email template *)

Definition buildEmail (to : string) : Message :=
  {| from := FROM_EMAIL;
     to := to;
     subject := subject_line script;
     html := html_body script |}.

(** *** Fetch all emails from the directory *)

Definition perPage : nat := 1000.

(** [if (user.email) emails.push(user.email)] *)
Definition push_email (emails : list string) (user : User) : list string :=
  match email user with
  | Some address => if truthy (Some address) then emails ++ [address] else emails
  | None => emails
  end.

(** The [while (true)] loop, [page] and [emails] threaded. *)
Fixpoint fetchAllEmails_loop (budget page : nat) (emails : list string)
  : Task (list string) :=
  match budget with
  | O => running
  | S budget' =>
      (r <- await_listUsers page perPage ;;
       match list_error r with
       | Some error =>
           throw {| message :=
                      template ["Supabase auth fetch failed at page ";
                                toString page; ": "; error_message error] |}
       | None =>
           match users r with
           | None => ret emails
           | Some us =>
               if List.length us =? 0 then ret emails
               else
                 let emails := fold_left push_email us emails in
                 console_log (template ["  Fetched ";
                                        toString (List.length emails);
                                        " emails so far..."]) ;;
                 let page := page + 1 in
                 if List.length us <? perPage then ret emails
                 else fetchAllEmails_loop budget' page emails
           end
       end)%task
  end.

Definition fetchAllEmails (budget : nat) : Task (list string) :=
  fetchAllEmails_loop budget 1 [].

(** *** Send emails in batches *)

(** The body of the [for] loop of [sendBatches] at index [i]. *)
Definition sendBatches_body (emails : list string) (total i : nat)
    (c : Counters) : Task Counters :=
  let batch := slice emails i (i + BATCH_SIZE) in
  let batchNum := floor_div i BATCH_SIZE + 1 in
  let totalBatches := ceil_div total BATCH_SIZE in
  if DRY_RUN then
    (console_log (template ["  [DRY RUN] Batch "; toString batchNum; "/";
                            toString totalBatches; ": would send to ";
                            toString (List.length batch); " recipients"]) ;;
     ret {| sent := sent c + List.length batch; failed := failed c |})%task
  else
    (c' <- try_catch
             (r <- await_batch_send (map buildEmail batch) ;;
              match send_error r with
              | Some error =>
                  console_error (template ["  Batch "; toString batchNum; "/";
                                           toString totalBatches; " FAILED: ";
                                           error_message error]) ;;
                  ret {| sent := sent c;
                         failed := failed c + List.length batch |}
              | None =>
                  let sent' := sent c + List.length batch in
                  console_log (template ["  Batch "; toString batchNum; "/";
                                         toString totalBatches; " sent (";
                                         toString sent'; "/"; toString total;
                                         " done)"]) ;;
                  ret {| sent := sent'; failed := failed c |}
              end)
             (fun err =>
                console_error (template ["  Batch "; toString batchNum; "/";
                                         toString totalBatches; " ERROR: ";
                                         message err]) ;;
                ret {| sent := sent c;
                       failed := failed c + List.length batch |}) ;;
     (if i + BATCH_SIZE <? total
      then setTimeout DELAY_BETWEEN_BATCHES_MS
      else ret tt) ;;
     ret c')%task.

(** The loop advances by [BATCH_SIZE] from 0 while [i < total], so
    [total] iterations are budget enough. *)
Definition sendBatches (emails : list string) : Task Counters :=
  let total := List.length emails in
  for_lt total 0 total BATCH_SIZE (sendBatches_body emails total)
    {| sent := 0; failed := 0 |}.

(** The value of [batch] in each iteration of that loop, in order:
    the same loop header with a body that only records the slice. *)
Definition batches (emails : list string) : list (list string) :=
  let total := List.length emails in
  match for_lt total 0 total BATCH_SIZE
          (fun i acc => ret (acc ++ [slice emails i (i + BATCH_SIZE)]))
          [] [] with
  | (Normal bs, _) => bs
  | _ => []
  end.

(** *** Main *)

Definition main (budget : nat) : Task unit :=
  (console_log (if DRY_RUN then "=== DRY RUN MODE ===" else "=== SENDING EMAILS ===") ;;
   console_log (template [nl; "1. Fetching emails from Supabase..."]) ;;
   emails <- fetchAllEmails budget ;;
   console_log (template ["   Found "; toString (List.length emails); " emails"; nl]) ;;
   if List.length emails =? 0 then
     console_log (no_emails_notice script) ;;
     ret tt
   else
     console_log (template ["2. Sending in batches of "; toString BATCH_SIZE; "..."; nl]) ;;
     c <- sendBatches emails ;;
     console_log (template [nl; "=== DONE ==="]) ;;
     console_log (template ["  Sent: "; toString (sent c)]) ;;
     console_log (template ["  Failed: "; toString (failed c)]) ;;
     ret tt)%task.

(** [main().catch((err) => { console.error("Fatal error:", err);
    process.exit(1); })]: the exit status of the process, when the run
    ends, and everything it did, from the call of [main] on (the
    configuration is read and the two clients are built before).  A run
    whose [main] completes leaves the event loop empty and the process
    ends with status 0. *)
Definition run (budget : nat) : option nat * History :=
  match main budget [] with
  | (Normal _, h) => (Some 0, h)
  | (Throw err, h) => (Some 1, h ++ [StderrError "Fatal error:" err; Exit 1])
  | (Running, h) => (None, h)
  end.


(** ** Vocabulary of the statements about the dispatcher *)

(** The [j]-th chunk of the recipients, counting from zero: the value of
    [batch] when [i] is [j * BATCH_SIZE]. *)
Definition chunk (emails : list string) (j : nat) : list string :=
  slice emails (j * BATCH_SIZE) (j * BATCH_SIZE + BATCH_SIZE).

(** What the sender settles the submission of chunk [j] to, in a
    dispatch that starts after the history [h0]: in normal mode chunk
    [j] is the subject of the [j]-th call of the dispatch. *)
Definition answer (h0 : History) (emails : list string) (j : nat)
  : Settled BatchResponse :=
  resend_batch_send (calls_before h0 + j) (map buildEmail (chunk emails j)).

(** A structured error result, or an unexpected fault. *)
Definition refused (a : Settled BatchResponse) : bool :=
  match a with
  | Resolved r =>
      match send_error r with
      | Some _ => true
      | None => false
      end
  | Rejected _ => true
  end.

(** Whether chunk [j] is counted as sent. *)
Definition accepted (h0 : History) (emails : list string) (j : nat) : bool :=
  if DRY_RUN then true else negb (refused (answer h0 emails j)).

(** The counters after the first [k] chunks: each chunk adds its whole
    length to one of the two, by its own verdict alone. *)
Definition sent_after (h0 : History) (emails : list string) (k : nat) : nat :=
  list_sum (map (fun j => if accepted h0 emails j
                          then List.length (chunk emails j) else 0)
                (seq 0 k)).

Definition failed_after (h0 : History) (emails : list string) (k : nat) : nat :=
  list_sum (map (fun j => if accepted h0 emails j
                          then 0 else List.length (chunk emails j))
                (seq 0 k)).

Definition tally (h0 : History) (emails : list string) (k : nat) : Counters :=
  {| sent := sent_after h0 emails k; failed := failed_after h0 emails k |}.

(** The console line of chunk [j] in normal mode. *)
Definition report (h0 : History) (emails : list string) (j : nat) : Event :=
  let total := List.length emails in
  let totalBatches := ceil_div total BATCH_SIZE in
  match answer h0 emails j with
  | Resolved r =>
      match send_error r with
      | Some error =>
          Stderr (template ["  Batch "; toString (j + 1); "/";
                            toString totalBatches; " FAILED: ";
                            error_message error])
      | None =>
          Stdout (template ["  Batch "; toString (j + 1); "/";
                            toString totalBatches; " sent (";
                            toString (sent_after h0 emails (S j)); "/";
                            toString total; " done)"])
      end
  | Rejected err =>
      Stderr (template ["  Batch "; toString (j + 1); "/";
                        toString totalBatches; " ERROR: "; message err])
  end.

(** Everything the dispatcher does for chunk [j]. *)
Definition chunk_events (h0 : History) (emails : list string) (j : nat)
  : list Event :=
  let total := List.length emails in
  if DRY_RUN then
    [Stdout (template ["  [DRY RUN] Batch "; toString (j + 1); "/";
                       toString (ceil_div total BATCH_SIZE);
                       ": would send to ";
                       toString (List.length (chunk emails j));
                       " recipients"])]
  else
    BatchSend (map buildEmail (chunk emails j))
      :: report h0 emails j
      :: (if j * BATCH_SIZE + BATCH_SIZE <? total
          then [Pause DELAY_BETWEEN_BATCHES_MS] else []).

(** The console line of a simulated batch. *)
Definition dry_run_line (total : nat) (numbered : nat * list string) : Event :=
  Stdout (template ["  [DRY RUN] Batch "; toString (fst numbered); "/";
                    toString (ceil_div total BATCH_SIZE); ": would send to ";
                    toString (List.length (snd numbered)); " recipients"]).

Definition dispatch_trace (h0 : History) (emails : list string) (k : nat)
  : list Event :=
  flat_map (chunk_events h0 emails) (seq 0 k).

(** ** Vocabulary of the statements about the fetcher and the run *)

(** The users a response lists; none when the list is missing. *)
Definition listed (r : ListUsersResponse) : list User :=
  match users r with
  | Some us => us
  | None => []
  end.

(** The non-empty email field of a user, if it has one. *)
Definition nonempty_email (user : User) : list string :=
  match email user with
  | None => []
  | Some EmptyString => []
  | Some address => [address]
  end.

Definition emails_of (us : list User) : list string :=
  flat_map nonempty_email us.

(** The progress line of the fetcher. *)
Definition fetched_line (count : nat) : Event :=
  Stdout (template ["  Fetched "; toString count; " emails so far..."]).

(** The only things the fetcher does: page requests and progress lines. *)
Definition fetch_event (e : Event) : Prop :=
  (exists page, e = ListUsers page perPage) \/ (exists count, e = fetched_line count).

(** The error [fetchAllEmails] throws for an error result at [page]. *)
Definition fetch_failure (page : nat) (error : ServiceError) : JsError :=
  {| message := template ["Supabase auth fetch failed at page ";
                          toString page; ": "; error_message error] |}.

(** What [main] prints before it fetches. *)
Definition preamble : History :=
  [Stdout (if DRY_RUN then "=== DRY RUN MODE ===" else "=== SENDING EMAILS ===");
   Stdout (template [nl; "1. Fetching emails from Supabase..."])].

Definition found_line (count : nat) : Event :=
  Stdout (template ["   Found "; toString count; " emails"; nl]).

Definition sending_line : Event :=
  Stdout (template ["2. Sending in batches of "; toString BATCH_SIZE; "..."; nl]).

(** The summary of the counters that ends a run with recipients. *)
Definition summary (c : Counters) : list Event :=
  [Stdout (template [nl; "=== DONE ==="]);
   Stdout (template ["  Sent: "; toString (sent c)]);
   Stdout (template ["  Failed: "; toString (failed c)])].

(** A history reports a sent or a failed count when it holds one of the
    two lines of the summary, for any number. *)
Definition reports_counts (h : History) : Prop :=
  exists count,
    In (Stdout (template ["  Sent: "; toString count])) h
    \/ In (Stdout (template ["  Failed: "; toString count])) h.

(** ** Facts about the primitives *)

Example toString_250 : toString 250 = "250".
Proof. reflexivity. Qed.

Example toString_0 : toString 0 = "0".
Proof. reflexivity. Qed.

Example slice_past_the_end : slice [1; 2; 3; 4; 5] 3 8 = [4; 5].
Proof. reflexivity. Qed.

Example ceil_div_250 : ceil_div 250 100 = 3 /\ ceil_div 200 100 = 2.
Proof. split; reflexivity. Qed.

Section Primitives.

Context {A : Type}.

Lemma slice_firstn_skipn (l : list A) (s e : nat) :
  s <= e -> slice l s e = firstn (e - s) (skipn s l).
Proof.
  intros Hse. unfold slice.
  destruct (Nat.le_gt_cases s (List.length l)) as [Hs | Hs].
  - rewrite (Nat.min_l s) by exact Hs.
    destruct (Nat.le_gt_cases e (List.length l)) as [He | He].
    + rewrite (Nat.min_l e) by exact He. reflexivity.
    + rewrite (Nat.min_r e) by lia.
      rewrite (firstn_all2 (n := e - s)); [ | rewrite length_skipn; lia ].
      apply firstn_all2. rewrite length_skipn. lia.
  - rewrite (Nat.min_r s) by lia.
    rewrite (skipn_all2 (n := s)) by lia.
    rewrite (skipn_all2 (n := List.length l)) by lia.
    now rewrite !firstn_nil.
Qed.

Lemma slice_length (l : list A) (s e : nat) :
  List.length (slice l s e)
  = Nat.min e (List.length l) - Nat.min s (List.length l).
Proof.
  unfold slice. rewrite length_firstn, length_skipn. lia.
Qed.

Lemma firstn_plus (a b : nat) (l : list A) :
  firstn a l ++ firstn b (skipn a l) = firstn (a + b) l.
Proof.
  revert l; induction a as [ | a IH]; intros l; [ reflexivity | ].
  destruct l as [ | x l]; simpl.
  - now rewrite firstn_nil.
  - now rewrite IH.
Qed.

Lemma firstn_slice (a b : nat) (l : list A) :
  firstn a l ++ slice l a (a + b) = firstn (a + b) l.
Proof.
  rewrite slice_firstn_skipn by lia.
  replace (a + b - a) with b by lia. apply firstn_plus.
Qed.

End Primitives.

Lemma ceil_div_bounds (a b : nat) :
  0 < b -> a <= ceil_div a b * b /\ ceil_div a b * b < a + b.
Proof.
  intros Hb. unfold ceil_div.
  pose proof (Nat.div_mod_eq a b) as Hdm.
  pose proof (Nat.mod_upper_bound a b ltac:(lia)) as Hm.
  destruct (Nat.eqb_spec (a mod b) 0) as [E | E]; nia.
Qed.

Lemma ceil_div_unique (a b k : nat) :
  0 < b -> a <= k * b -> k * b < a + b -> k = ceil_div a b.
Proof.
  intros Hb Hlo Hhi.
  destruct (ceil_div_bounds a b Hb) as [Clo Chi]. nia.
Qed.

(** ** Reasoning about the effect monad and the loop *)

Lemma bind_normal {A B : Type} (m : Task A) (k : A -> Task B) h a h' :
  m h = (Normal a, h') -> bind m k h = k a h'.
Proof. intros E. unfold bind. now rewrite E. Qed.

(** The invariant rule of [for_lt]: a property of the loop variable, the
    threaded variables and the history that the body preserves holds
    when the loop is left, and the loop is left within a budget of
    [bound - i] iterations. *)
Lemma for_lt_invariant {State : Type}
    (Inv : nat -> State -> History -> Prop)
    (bound step : nat) (body : nat -> State -> Task State) :
  0 < step ->
  (forall i s h, i < bound -> Inv i s h ->
     exists s' h', body i s h = (Normal s', h') /\ Inv (i + step) s' h') ->
  forall budget i s h,
    bound - i <= budget -> Inv i s h ->
    exists i' s' h',
      for_lt budget i bound step body s h = (Normal s', h')
      /\ bound <= i' /\ Inv i' s' h'.
Proof.
  intros Hstep Hbody.
  induction budget as [ | budget IH]; intros i s h Hbudget HInv.
  - exists i, s, h. simpl.
    destruct (Nat.ltb_spec i bound) as [Hlt | Hge]; [ lia | ].
    repeat split; [ lia | exact HInv ].
  - simpl. destruct (Nat.ltb_spec i bound) as [Hlt | Hge].
    + destruct (Hbody i s h Hlt HInv) as (s1 & h1 & Ebody & HInv1).
      rewrite (bind_normal _ _ _ _ _ Ebody).
      apply IH; [ lia | exact HInv1 ].
    + exists i, s, h. repeat split; [ exact Hge | exact HInv ].
Qed.

(** ** The dispatcher, chunk by chunk *)

Lemma BATCH_SIZE_pos : 0 < BATCH_SIZE.
Proof. unfold BATCH_SIZE. lia. Qed.

Lemma sent_after_S h0 emails k :
  sent_after h0 emails (S k)
  = sent_after h0 emails k
    + (if accepted h0 emails k then List.length (chunk emails k) else 0).
Proof.
  unfold sent_after. rewrite seq_S, map_app, list_sum_app. simpl. lia.
Qed.

Lemma failed_after_S h0 emails k :
  failed_after h0 emails (S k)
  = failed_after h0 emails k
    + (if accepted h0 emails k then 0 else List.length (chunk emails k)).
Proof.
  unfold failed_after. rewrite seq_S, map_app, list_sum_app. simpl. lia.
Qed.

Lemma dispatch_trace_S h0 emails k :
  dispatch_trace h0 emails (S k)
  = dispatch_trace h0 emails k ++ chunk_events h0 emails k.
Proof.
  unfold dispatch_trace. rewrite seq_S, flat_map_app. simpl.
  now rewrite app_nil_r.
Qed.

Lemma calls_before_app h t :
  calls_before (h ++ t) = calls_before h + calls_before t.
Proof. unfold calls_before. now rewrite filter_app, length_app. Qed.

Lemma calls_before_dispatch_trace h0 emails k :
  calls_before (dispatch_trace h0 emails k) = if DRY_RUN then 0 else k.
Proof.
  induction k as [ | k IH].
  - now destruct DRY_RUN.
  - rewrite dispatch_trace_S, calls_before_app, IH.
    unfold chunk_events. destruct DRY_RUN; [ reflexivity | ].
    unfold calls_before, report.
    destruct (answer h0 emails k) as [r | e];
      [ destruct (send_error r) | ];
      destruct (_ <? _); simpl; lia.
Qed.

(** One iteration of the loop, at the start of chunk [j], with the
    counters and the history the earlier chunks left. *)
Lemma sendBatches_body_chunk h0 emails j :
  sendBatches_body emails (List.length emails) (j * BATCH_SIZE)
    (tally h0 emails j) (h0 ++ dispatch_trace h0 emails j)
  = (Normal (tally h0 emails (S j)), h0 ++ dispatch_trace h0 emails (S j)).
Proof.
  rewrite dispatch_trace_S.
  unfold tally. rewrite sent_after_S, failed_after_S.
  unfold sendBatches_body, floor_div.
  rewrite Nat.div_mul by (unfold BATCH_SIZE; lia).
  fold (chunk emails j).
  unfold chunk_events, accepted.
  destruct DRY_RUN eqn:Edry.
  - unfold bind, console_log, emit, ret. cbn [sent failed].
    rewrite !Nat.add_0_r, <- app_assoc. reflexivity.
  - unfold bind, try_catch, await_batch_send.
    rewrite calls_before_app, calls_before_dispatch_trace, Edry.
    fold (answer h0 emails j). unfold report.
    rewrite sent_after_S. unfold accepted. rewrite Edry.
    destruct (answer h0 emails j) as [r | e]; cbn [refused negb];
      [ destruct (send_error r) as [error | ]; cbn [negb] | ];
      unfold console_log, console_error, setTimeout, emit, ret;
      cbn [sent failed];
      destruct (_ <? _);
      rewrite ?Nat.add_0_r, <- ?app_assoc; reflexivity.
Qed.

(** The whole loop: after the chunks [0 .. n-1], where [n] is the number
    of batches the script prints, the counters are the tally and the
    history has grown by the events of each chunk in turn. *)
Lemma sendBatches_spec emails h0 :
  sendBatches emails h0
  = (Normal (tally h0 emails (ceil_div (List.length emails) BATCH_SIZE)),
     h0 ++ dispatch_trace h0 emails (ceil_div (List.length emails) BATCH_SIZE)).
Proof.
  unfold sendBatches.
  set (total := List.length emails).
  destruct (for_lt_invariant
              (fun i c h =>
                 exists k, i = k * BATCH_SIZE
                           /\ k * BATCH_SIZE < total + BATCH_SIZE
                           /\ c = tally h0 emails k
                           /\ h = h0 ++ dispatch_trace h0 emails k)
              total BATCH_SIZE (sendBatches_body emails total)
              BATCH_SIZE_pos)
    with (budget := total) (i := 0) (s := {| sent := 0; failed := 0 |}) (h := h0)
    as (i' & c' & h' & Efor & Hexit & k & Hi & Hk & Hc & Hh).
  - intros i c h Hlt (k & Hi & Hk & Hc & Hh). subst i c h.
    exists (tally h0 emails (S k)), (h0 ++ dispatch_trace h0 emails (S k)).
    split; [ apply sendBatches_body_chunk | ].
    exists (S k). rewrite Nat.mul_succ_l. repeat split; lia.
  - lia.
  - exists 0. pose proof BATCH_SIZE_pos.
    repeat split; [ lia | ].
    unfold dispatch_trace; simpl. now rewrite app_nil_r.
  - rewrite Efor. subst i' c' h'.
    now rewrite <- (ceil_div_unique total BATCH_SIZE k BATCH_SIZE_pos) by lia.
Qed.

(** ** The chunks *)

Lemma chunk_length emails j :
  List.length (chunk emails j)
  = Nat.min (j * BATCH_SIZE + BATCH_SIZE) (List.length emails)
    - Nat.min (j * BATCH_SIZE) (List.length emails).
Proof. unfold chunk. apply slice_length. Qed.

Lemma chunks_concat emails k :
  concat (map (chunk emails) (seq 0 k)) = firstn (k * BATCH_SIZE) emails.
Proof.
  induction k as [ | k IH]; [ reflexivity | ].
  rewrite seq_S, map_app, concat_app, IH. cbn [Nat.add map concat].
  rewrite app_nil_r. unfold chunk. rewrite firstn_slice.
  now rewrite Nat.mul_succ_l.
Qed.

Lemma chunks_cover emails :
  concat (map (chunk emails)
              (seq 0 (ceil_div (List.length emails) BATCH_SIZE)))
  = emails.
Proof.
  rewrite chunks_concat. apply firstn_all2.
  apply (ceil_div_bounds _ _ BATCH_SIZE_pos).
Qed.

Lemma combine_map_same {X Y Z : Type} (f : X -> Y) (g : X -> Z) (l : list X) :
  combine (map f l) (map g l) = map (fun x => (f x, g x)) l.
Proof. induction l as [ | x l IH]; simpl; [ | rewrite IH ]; reflexivity. Qed.

Lemma list_sum_cons (x : nat) (l : list nat) :
  list_sum (x :: l) = x + list_sum l.
Proof. reflexivity. Qed.

Lemma list_sum_map_add {X : Type} (f g : X -> nat) (l : list X) :
  list_sum (map f l) + list_sum (map g l)
  = list_sum (map (fun x => f x + g x) l).
Proof. induction l as [ | x l IH]; simpl; lia. Qed.

Lemma tally_total h0 emails k :
  sent_after h0 emails k + failed_after h0 emails k
  = List.length (firstn (k * BATCH_SIZE) emails).
Proof.
  rewrite <- chunks_concat, length_concat, map_map.
  unfold sent_after, failed_after. rewrite list_sum_map_add.
  f_equal. apply map_ext. intros j. destruct (accepted h0 emails j); lia.
Qed.

(** The recorded batches are the chunks [0 .. n-1]. *)
Lemma batches_chunks emails :
  batches emails
  = map (chunk emails) (seq 0 (ceil_div (List.length emails) BATCH_SIZE)).
Proof.
  unfold batches.
  set (total := List.length emails).
  destruct (for_lt_invariant
              (fun i acc (h : History) =>
                 exists k, i = k * BATCH_SIZE
                           /\ k * BATCH_SIZE < total + BATCH_SIZE
                           /\ acc = map (chunk emails) (seq 0 k))
              total BATCH_SIZE
              (fun i acc => ret (acc ++ [slice emails i (i + BATCH_SIZE)]))
              BATCH_SIZE_pos)
    with (budget := total) (i := 0) (s := @nil (list string)) (h := @nil Event)
    as (i' & bs & h' & Efor & Hexit & k & Hi & Hk & Hbs).
  - intros i acc h Hlt (k & Hi & Hk & Hacc). subst i acc.
    eexists _, h. split; [ reflexivity | ].
    exists (S k). rewrite Nat.mul_succ_l, seq_S, map_app.
    repeat split; lia.
  - lia.
  - exists 0. pose proof BATCH_SIZE_pos. repeat split; lia.
  - rewrite Efor. subst i' bs.
    now rewrite <- (ceil_div_unique total BATCH_SIZE k BATCH_SIZE_pos) by lia.
Qed.

Lemma chunk_full emails j :
  S j < ceil_div (List.length emails) BATCH_SIZE ->
  List.length (chunk emails j) = BATCH_SIZE.
Proof.
  intros Hj. rewrite chunk_length.
  destruct (ceil_div_bounds (List.length emails) BATCH_SIZE BATCH_SIZE_pos).
  nia.
Qed.

Lemma chunk_bounds emails j :
  j < ceil_div (List.length emails) BATCH_SIZE ->
  1 <= List.length (chunk emails j) <= BATCH_SIZE.
Proof.
  intros Hj. rewrite chunk_length.
  destruct (ceil_div_bounds (List.length emails) BATCH_SIZE BATCH_SIZE_pos).
  nia.
Qed.

(** The pause test of the loop, in terms of the chunk number. *)
Lemma pause_test (emails : list string) j :
  (j * BATCH_SIZE + BATCH_SIZE <? List.length emails)
  = (S j <? ceil_div (List.length emails) BATCH_SIZE).
Proof.
  destruct (ceil_div_bounds (List.length emails) BATCH_SIZE BATCH_SIZE_pos).
  destruct (Nat.ltb_spec (j * BATCH_SIZE + BATCH_SIZE) (List.length emails));
    destruct (Nat.ltb_spec (S j) (ceil_div (List.length emails) BATCH_SIZE));
    try reflexivity; nia.
Qed.

(** ** One iteration, from any counters and any history *)

Lemma sendBatches_body_dry emails total i c h :
  DRY_RUN = true ->
  sendBatches_body emails total i c h
  = (Normal {| sent := sent c + List.length (slice emails i (i + BATCH_SIZE));
               failed := failed c |},
     h ++ [Stdout (template ["  [DRY RUN] Batch ";
                             toString (floor_div i BATCH_SIZE + 1); "/";
                             toString (ceil_div total BATCH_SIZE);
                             ": would send to ";
                             toString (List.length
                                         (slice emails i (i + BATCH_SIZE)));
                             " recipients"])]).
Proof.
  intros Edry. unfold sendBatches_body. rewrite Edry. reflexivity.
Qed.

Lemma sendBatches_body_all_or_nothing emails total i c h :
  exists c' t,
    sendBatches_body emails total i c h = (Normal c', h ++ t)
    /\ ((sent c' = sent c + List.length (slice emails i (i + BATCH_SIZE))
         /\ failed c' = failed c)
        \/ (sent c' = sent c
            /\ failed c' = failed c
                           + List.length (slice emails i (i + BATCH_SIZE)))).
Proof.
  destruct DRY_RUN eqn:Edry.
  - rewrite sendBatches_body_dry by exact Edry.
    eexists _, _. split; [ reflexivity | ]. left. split; reflexivity.
  - unfold sendBatches_body. rewrite Edry.
    unfold bind, try_catch, await_batch_send.
    destruct (resend_batch_send _ _) as [r | e];
      [ destruct (send_error r) as [error | ] | ];
      unfold console_log, console_error, setTimeout, emit, ret;
      destruct (_ <? _);
      rewrite <- ?app_assoc;
      eexists _, _; (split; [ reflexivity | ]); cbn [sent failed];
      solve [ left; split; reflexivity | right; split; reflexivity ].
Qed.

(** ** Accounting *)

(** The dispatch always completes, and its counters add up. *)
Lemma dispatch_completes (emails : list string) (h0 : History) :
  exists c t,
    sendBatches emails h0 = (Normal c, h0 ++ t)
    /\ sent c + failed c = List.length emails.
Proof.
  eexists _, _. split; [ apply sendBatches_spec | ].
  unfold tally; cbn [sent failed]. rewrite tally_total. f_equal.
  apply firstn_all2. apply (ceil_div_bounds _ _ BATCH_SIZE_pos).
Qed.

(** C1. After [sendBatches] completes, [sent + failed] is the number of
    recipients; every chunk is counted whole under exactly one of the
    two counters: the final counters are the sums of the lengths of two
    complementary groups of the batches, and each iteration of the loop
    adds the whole length of its batch to [sent] and nothing to
    [failed], or the reverse. *)
Theorem sendBatches_counts_every_recipient (emails : list string) (h0 : History) :
  exists c h,
    sendBatches emails h0 = (Normal c, h)
    /\ sent c + failed c = List.length emails
    /\ (exists verdicts : list bool,
           List.length verdicts = List.length (batches emails)
           /\ sent c
              = list_sum (map (fun bv : list string * bool => if snd bv then List.length (fst bv) else 0)
                              (combine (batches emails) verdicts))
           /\ failed c
              = list_sum (map (fun bv : list string * bool => if snd bv then 0 else List.length (fst bv))
                              (combine (batches emails) verdicts)))
    /\ (forall i c0 h1,
           exists c1 t,
             sendBatches_body emails (List.length emails) i c0 h1
             = (Normal c1, h1 ++ t)
             /\ ((sent c1 = sent c0 + List.length (slice emails i (i + BATCH_SIZE))
                  /\ failed c1 = failed c0)
                 \/ (sent c1 = sent c0
                     /\ failed c1
                        = failed c0
                          + List.length (slice emails i (i + BATCH_SIZE))))).
Proof.
  set (n := ceil_div (List.length emails) BATCH_SIZE).
  exists (tally h0 emails n), (h0 ++ dispatch_trace h0 emails n).
  split; [ apply sendBatches_spec | ].
  split.
  - unfold tally; cbn [sent failed]. rewrite tally_total. f_equal.
    apply firstn_all2.
    apply (ceil_div_bounds _ _ BATCH_SIZE_pos).
  - split; [ | intros i c0 h1; apply sendBatches_body_all_or_nothing ].
    exists (map (accepted h0 emails) (seq 0 n)).
    rewrite batches_chunks. fold n.
    rewrite combine_map_same, !map_map, !length_map.
    repeat split.
Qed.

(** ** Chunking *)

Lemma dispatch_trace_dry h0 emails k :
  DRY_RUN = true ->
  dispatch_trace h0 emails k
  = map (dry_run_line (List.length emails))
        (combine (seq 1 k) (map (chunk emails) (seq 0 k))).
Proof.
  intros Edry. rewrite <- seq_shift, combine_map_same, map_map.
  unfold dispatch_trace. rewrite flat_map_concat_map.
  induction (seq 0 k) as [ | j js IH]; [ reflexivity | ].
  cbn [map concat]. rewrite IH. unfold chunk_events at 1. rewrite Edry.
  unfold dry_run_line. cbn [fst snd app]. now rewrite Nat.add_1_r.
Qed.

Lemma requests_dispatch_trace h0 emails k :
  DRY_RUN = false ->
  filter is_BatchSend (dispatch_trace h0 emails k)
  = map (fun b => BatchSend (map buildEmail b)) (map (chunk emails) (seq 0 k)).
Proof.
  intros Edry. unfold dispatch_trace. rewrite flat_map_concat_map.
  induction (seq 0 k) as [ | j js IH]; [ reflexivity | ].
  cbn [map concat]. rewrite filter_app, IH.
  unfold chunk_events at 1. rewrite Edry. unfold report.
  destruct (answer h0 emails j) as [r | e];
    [ destruct (send_error r) | ]; destruct (_ <? _); reflexivity.
Qed.

(** C2. With the batch size 100, the dispatcher cuts a list of [L]
    recipients into exactly [ceil(L / 100)] consecutive chunks, none
    empty and none longer than 100, all but the last of length 100,
    whose concatenation in order is the list; and these chunks are the
    batches the run handles: submitted one call each in normal mode,
    announced one line each in simulation mode. *)
Theorem batches_partition (emails : list string) (h0 : History) :
  let bs := batches emails in
  let L := List.length emails in
  BATCH_SIZE = 100
  /\ List.length bs = ceil_div L BATCH_SIZE
  /\ L <= List.length bs * BATCH_SIZE < L + BATCH_SIZE
  /\ Forall (fun b => 1 <= List.length b <= BATCH_SIZE) bs
  /\ Forall (fun b => List.length b = BATCH_SIZE) (removelast bs)
  /\ concat bs = emails
  /\ bs = map (fun j => slice emails (j * BATCH_SIZE)
                          (j * BATCH_SIZE + BATCH_SIZE))
              (seq 0 (List.length bs))
  /\ exists c t,
       sendBatches emails h0 = (Normal c, h0 ++ t)
       /\ if DRY_RUN
          then t = map (dry_run_line L) (combine (seq 1 (List.length bs)) bs)
          else filter is_BatchSend t
               = map (fun b => BatchSend (map buildEmail b)) bs.
Proof.
  intros bs L. subst bs L.
  rewrite batches_chunks, length_map, length_seq.
  set (n := ceil_div (List.length emails) BATCH_SIZE).
  pose proof (ceil_div_bounds (List.length emails) BATCH_SIZE BATCH_SIZE_pos)
    as Hn. fold n in Hn.
  repeat match goal with |- _ /\ _ => split end; try reflexivity; try apply Hn.
  - apply Forall_forall. intros b Hb.
    apply in_map_iff in Hb as (j & <- & Hj). apply in_seq in Hj.
    apply chunk_bounds. fold n. lia.
  - destruct n as [ | m] eqn:En; [ constructor | ].
    rewrite seq_S, map_app. cbn [map Nat.add]. rewrite removelast_last.
    apply Forall_forall. intros b Hb.
    apply in_map_iff in Hb as (j & <- & Hj). apply in_seq in Hj.
    apply chunk_full. fold n. lia.
  - apply chunks_cover.
  - exists (tally h0 emails n), (dispatch_trace h0 emails n).
    split; [ apply sendBatches_spec | ].
    destruct DRY_RUN eqn:Edry.
    + now apply dispatch_trace_dry.
    + now apply requests_dispatch_trace.
Qed.

(** ** Simulation mode *)

(** C5. In simulation mode [sendBatches] makes no call to the sender,
    returns [failed = 0] and counts every recipient as sent; each
    iteration adds the whole of its batch to [sent] and only prints. *)
Theorem dry_run_sends_nothing (emails : list string) (h0 : History) :
  DRY_RUN = true ->
  exists t,
    sendBatches emails h0
    = (Normal {| sent := List.length emails; failed := 0 |}, h0 ++ t)
    /\ filter is_BatchSend t = []
    /\ Forall (fun e => is_Stdout e = true) t
    /\ forall i c h,
         exists line,
           sendBatches_body emails (List.length emails) i c h
           = (Normal {| sent := sent c
                                + List.length (slice emails i (i + BATCH_SIZE));
                        failed := failed c |},
              h ++ [Stdout line]).
Proof.
  intros Edry.
  set (n := ceil_div (List.length emails) BATCH_SIZE).
  assert (Hfailed : forall k, failed_after h0 emails k = 0).
  { intros k. unfold failed_after, accepted. rewrite Edry.
    induction (seq 0 k) as [ | j js IH]; [ reflexivity | exact IH ]. }
  exists (dispatch_trace h0 emails n).
  split.
  - rewrite sendBatches_spec. fold n. unfold tally. do 2 f_equal.
    rewrite Hfailed. f_equal.
    pose proof (tally_total h0 emails n) as Hsum. rewrite Hfailed in Hsum.
    rewrite Nat.add_0_r in Hsum. rewrite Hsum. f_equal. apply firstn_all2.
    apply (ceil_div_bounds _ _ BATCH_SIZE_pos).
  - rewrite (dispatch_trace_dry h0 emails n Edry).
    repeat split.
    + induction (combine _ _) as [ | x xs IH]; [ reflexivity | exact IH ].
    + apply Forall_forall. intros e He.
      apply in_map_iff in He as (x & <- & _). reflexivity.
    + intros i c h. eexists. now apply sendBatches_body_dry.
Qed.

(** ** Failures of the sender *)

Lemma nth_batches emails k :
  k < List.length (batches emails) ->
  nth k (batches emails) [] = chunk emails k.
Proof.
  rewrite batches_chunks, length_map, length_seq. intros Hk.
  rewrite (nth_indep _ [] (chunk emails 0)) by (now rewrite length_map, length_seq).
  rewrite map_nth, seq_nth by exact Hk. reflexivity.
Qed.

Lemma seq_split_at (k n : nat) :
  k < n -> seq 0 n = seq 0 k ++ k :: seq (S k) (n - S k).
Proof.
  intros Hk. replace n with (k + S (n - S k)) at 1 by lia.
  rewrite seq_app. reflexivity.
Qed.

Lemma chunk_events_refused h0 emails k :
  DRY_RUN = false ->
  refused (answer h0 emails k) = true ->
  exists line,
    chunk_events h0 emails k
    = BatchSend (map buildEmail (chunk emails k))
        :: Stderr line
        :: (if S k <? ceil_div (List.length emails) BATCH_SIZE
            then [Pause DELAY_BETWEEN_BATCHES_MS] else []).
Proof.
  intros Edry Hrefused. unfold chunk_events, report. rewrite Edry, pause_test.
  unfold refused in Hrefused.
  destruct (answer h0 emails k) as [r | e];
    [ destruct (send_error r) as [error | ] | ];
    try discriminate Hrefused; eexists; reflexivity.
Qed.

(** C4. In normal mode, when the sender settles the call that submits
    chunk [k] with an error result or a fault, the run still completes;
    chunk [k] is submitted by that one call only, an error line is
    printed, the pause follows unless the chunk is the last, and the
    later chunks are handled as ever; [failed] is the length of chunk
    [k] plus what the other chunks contribute by their own verdicts, and
    [sent] is what the other chunks contribute. *)
Theorem refused_chunk_counted_failed (emails : list string) (h0 : History) (k : nat) :
  DRY_RUN = false ->
  k < List.length (batches emails) ->
  refused (resend_batch_send (calls_before h0 + k)
             (map buildEmail (nth k (batches emails) []))) = true ->
  let n := List.length (batches emails) in
  let others := seq 0 k ++ seq (S k) (n - S k) in
  exists c t line,
    sendBatches emails h0 = (Normal c, h0 ++ t)
    /\ t = flat_map (chunk_events h0 emails) (seq 0 k)
           ++ (BatchSend (map buildEmail (nth k (batches emails) []))
                 :: Stderr line
                 :: (if S k <? n then [Pause DELAY_BETWEEN_BATCHES_MS] else []))
           ++ flat_map (chunk_events h0 emails) (seq (S k) (n - S k))
    /\ filter is_BatchSend t
       = map (fun b => BatchSend (map buildEmail b)) (batches emails)
    /\ failed c
       = List.length (nth k (batches emails) [])
         + list_sum (map (fun j => if accepted h0 emails j
                                   then 0 else List.length (chunk emails j))
                         others)
    /\ sent c
       = list_sum (map (fun j => if accepted h0 emails j
                                 then List.length (chunk emails j) else 0)
                       others).
Proof.
  intros Edry Hk Hrefused n others. subst n others.
  rewrite (nth_batches emails k Hk) in *. fold (answer h0 emails k) in Hrefused.
  destruct (chunk_events_refused h0 emails k Edry Hrefused) as (line & Eevents).
  assert (En : List.length (batches emails)
               = ceil_div (List.length emails) BATCH_SIZE)
    by now rewrite batches_chunks, length_map, length_seq.
  rewrite En in *.
  set (n := ceil_div (List.length emails) BATCH_SIZE) in *.
  assert (Eacc : accepted h0 emails k = false)
    by (unfold accepted; now rewrite Edry, Hrefused).
  exists (tally h0 emails n), (dispatch_trace h0 emails n), line.
  split; [ apply sendBatches_spec | ].
  split; [ | split; [ | split ] ].
  - unfold dispatch_trace. rewrite (seq_split_at k n Hk) at 1.
    rewrite flat_map_app. cbn [flat_map]. now rewrite Eevents.
  - rewrite batches_chunks. now apply requests_dispatch_trace.
  - unfold tally, failed_after; cbn [failed].
    rewrite (seq_split_at k n Hk) at 1.
    rewrite !map_app, !list_sum_app. cbn [map].
    rewrite list_sum_cons, Eacc. lia.
  - unfold tally, sent_after; cbn [sent].
    rewrite (seq_split_at k n Hk) at 1.
    rewrite !map_app, !list_sum_app. cbn [map].
    rewrite list_sum_cons, Eacc. lia.
Qed.

(** ** The pause between batches *)

Lemma actions_dispatch_trace h0 emails k :
  DRY_RUN = false ->
  filter is_action (dispatch_trace h0 emails k)
  = flat_map (fun j => BatchSend (map buildEmail (chunk emails j))
                         :: (if S j <? ceil_div (List.length emails) BATCH_SIZE
                             then [Pause DELAY_BETWEEN_BATCHES_MS] else []))
             (seq 0 k).
Proof.
  intros Edry. unfold dispatch_trace.
  induction (seq 0 k) as [ | j js IH]; [ reflexivity | ].
  cbn [flat_map]. rewrite filter_app, IH. f_equal.
  unfold chunk_events. rewrite Edry, pause_test. unfold report.
  destruct (answer h0 emails j) as [r | e];
    [ destruct (send_error r) | ]; destruct (_ <? _); reflexivity.
Qed.

Lemma pauses_dispatch_trace h0 emails k :
  k <= ceil_div (List.length emails) BATCH_SIZE ->
  List.length (filter is_Pause (dispatch_trace h0 emails k))
  = if DRY_RUN then 0
    else Nat.min k (ceil_div (List.length emails) BATCH_SIZE - 1).
Proof.
  induction k as [ | k IH]; intros Hk.
  - now destruct DRY_RUN.
  - rewrite dispatch_trace_S, filter_app, length_app, IH by lia.
    unfold chunk_events. rewrite pause_test. unfold report.
    destruct DRY_RUN; [ reflexivity | ].
    destruct (answer h0 emails k) as [r | e];
      [ destruct (send_error r) | ];
      destruct (Nat.ltb_spec (S k) (ceil_div (List.length emails) BATCH_SIZE));
      cbn [filter is_Pause List.length]; lia.
Qed.

(** C6, as the script has it.  In normal mode the dispatcher pauses once
    after every chunk except the last, whatever the sender answered:
    its calls and pauses alternate, [n - 1] pauses for [n] chunks.  In
    simulation mode it never pauses.  250 recipients make 3 batches of
    100, 100 and 50, with 2 pauses in normal mode. *)
Theorem pauses_between_batches (emails : list string) (h0 : History) :
  let n := List.length (batches emails) in
  exists c t,
    sendBatches emails h0 = (Normal c, h0 ++ t)
    /\ List.length (filter is_Pause t) = (if DRY_RUN then 0 else n - 1)
    /\ (if DRY_RUN then filter is_action t = []
        else filter is_action t
             = flat_map
                 (fun j => BatchSend (map buildEmail (nth j (batches emails) []))
                             :: (if S j <? n
                                 then [Pause DELAY_BETWEEN_BATCHES_MS] else []))
                 (seq 0 n))
    /\ (List.length emails = 250 ->
        map (@List.length string) (batches emails) = [100; 100; 50]
        /\ List.length (filter is_Pause t) = if DRY_RUN then 0 else 2).
Proof.
  intros n.
  assert (En : n = ceil_div (List.length emails) BATCH_SIZE)
    by (subst n; now rewrite batches_chunks, length_map, length_seq).
  exists (tally h0 emails n), (dispatch_trace h0 emails n).
  split; [ rewrite En; apply sendBatches_spec | ].
  assert (Hpauses : List.length (filter is_Pause (dispatch_trace h0 emails n))
                    = if DRY_RUN then 0 else n - 1).
  { rewrite En at 1. rewrite pauses_dispatch_trace by lia. rewrite <- En.
    destruct DRY_RUN; [ reflexivity | lia ]. }
  split; [ exact Hpauses | ].
  split.
  - destruct DRY_RUN eqn:Edry.
    + rewrite (dispatch_trace_dry h0 emails n Edry).
      induction (combine _ _) as [ | x xs IH]; [ reflexivity | exact IH ].
    + rewrite En at 1. rewrite (actions_dispatch_trace h0 emails _ Edry).
      rewrite <- En. rewrite !flat_map_concat_map. f_equal.
      apply map_ext_in. intros j Hj. apply in_seq in Hj.
      rewrite nth_batches by (fold n; lia). reflexivity.
  - intros HL. rewrite Hpauses. subst n.
    rewrite batches_chunks, map_map, length_map, length_seq.
    rewrite (map_ext _ _ (chunk_length emails)). rewrite HL.
    split; [ reflexivity | ]. destruct DRY_RUN; reflexivity.
Qed.

(** ** The fetcher, page by page *)

Lemma push_emails (us : list User) (emails : list string) :
  fold_left push_email us emails = emails ++ emails_of us.
Proof.
  revert emails; induction us as [ | user us IH]; intros emails.
  - now rewrite app_nil_r.
  - cbn [fold_left]. rewrite IH. unfold emails_of. cbn [flat_map].
    rewrite app_assoc. f_equal.
    unfold push_email, nonempty_email.
    destruct (email user) as [[ | a address] | ]; cbn [truthy];
      now rewrite ?app_nil_r.
Qed.

Lemma fetch_step_rejected budget page emails h e :
  supabase_listUsers page perPage = Rejected e ->
  fetchAllEmails_loop (S budget) page emails h
  = (Throw e, h ++ [ListUsers page perPage]).
Proof.
  intros E. cbn [fetchAllEmails_loop]. unfold bind, await_listUsers.
  now rewrite E.
Qed.

Lemma fetch_step_error budget page emails h r error :
  supabase_listUsers page perPage = Resolved r ->
  list_error r = Some error ->
  fetchAllEmails_loop (S budget) page emails h
  = (Throw (fetch_failure page error), h ++ [ListUsers page perPage]).
Proof.
  intros E Eerr. cbn [fetchAllEmails_loop]. unfold bind, await_listUsers.
  now rewrite E, Eerr.
Qed.

Lemma fetch_step_empty budget page emails h r :
  supabase_listUsers page perPage = Resolved r ->
  list_error r = None ->
  List.length (listed r) = 0 ->
  fetchAllEmails_loop (S budget) page emails h
  = (Normal emails, h ++ [ListUsers page perPage]).
Proof.
  intros E Eerr Hlen. cbn [fetchAllEmails_loop]. unfold bind, await_listUsers.
  rewrite E, Eerr. unfold listed in Hlen.
  destruct (users r) as [us | ]; [ | reflexivity ].
  now rewrite Hlen.
Qed.

Lemma fetch_step_short budget page emails h r :
  supabase_listUsers page perPage = Resolved r ->
  list_error r = None ->
  0 < List.length (listed r) < perPage ->
  fetchAllEmails_loop (S budget) page emails h
  = (Normal (emails ++ emails_of (listed r)),
     h ++ [ListUsers page perPage;
           fetched_line (List.length (emails ++ emails_of (listed r)))]).
Proof.
  intros E Eerr [Hpos Hshort]. cbn [fetchAllEmails_loop].
  unfold bind, await_listUsers. rewrite E, Eerr. unfold listed in *.
  destruct (users r) as [us | ]; [ | inversion Hpos ].
  destruct (Nat.eqb_spec (List.length us) 0) as [E0 | _]; [ lia | ].
  rewrite push_emails. unfold console_log, emit.
  destruct (Nat.ltb_spec (List.length us) perPage) as [_ | Hge]; [ | lia ].
  unfold ret, fetched_line. now rewrite <- app_assoc.
Qed.

Lemma fetch_step_full budget page emails h r :
  supabase_listUsers page perPage = Resolved r ->
  list_error r = None ->
  perPage <= List.length (listed r) ->
  fetchAllEmails_loop (S budget) page emails h
  = fetchAllEmails_loop budget (page + 1) (emails ++ emails_of (listed r))
      (h ++ [ListUsers page perPage;
             fetched_line (List.length (emails ++ emails_of (listed r)))]).
Proof.
  intros E Eerr Hfull. cbn [fetchAllEmails_loop].
  unfold bind, await_listUsers. rewrite E, Eerr. unfold listed in *.
  assert (Hpp : 0 < perPage) by (unfold perPage; lia).
  destruct (users r) as [us | ]; [ | cbn [List.length] in Hfull; lia ].
  destruct (Nat.eqb_spec (List.length us) 0) as [E0 | _]; [ lia | ].
  rewrite push_emails. unfold console_log, emit.
  destruct (Nat.ltb_spec (List.length us) perPage) as [Hlt | _]; [ lia | ].
  unfold fetched_line. now rewrite <- app_assoc.
Qed.

Lemma fetch_full_pages (pages : list ListUsersResponse) :
  forall page emails budget h d,
    (forall j, j < List.length pages ->
               supabase_listUsers (page + j) perPage = Resolved (nth j pages d)) ->
    Forall (fun r => list_error r = None /\ perPage <= List.length (listed r))
           pages ->
    exists t,
      fetchAllEmails_loop (List.length pages + budget) page emails h
      = fetchAllEmails_loop budget (page + List.length pages)
          (emails ++ flat_map (fun r => emails_of (listed r)) pages) (h ++ t)
      /\ filter is_ListUsers t
         = map (fun q => ListUsers q perPage) (seq page (List.length pages))
      /\ Forall fetch_event t.
Proof.
  induction pages as [ | r rest IH]; intros page emails budget h d Hsrc Hfull.
  - exists []. cbn [List.length flat_map Nat.add].
    rewrite Nat.add_0_r, !app_nil_r. repeat split. constructor.
  - inversion Hfull as [ | r' rest' [Herr Hlen] Hrest]; subst r' rest'.
    pose proof (Hsrc 0 ltac:(cbn [List.length]; lia)) as E0.
    rewrite Nat.add_0_r in E0. cbn [nth] in E0.
    cbn [List.length Nat.add].
    rewrite (fetch_step_full _ page emails h r E0 Herr Hlen).
    destruct (IH (page + 1) (emails ++ emails_of (listed r)) budget
                (h ++ [ListUsers page perPage;
                       fetched_line
                         (List.length (emails ++ emails_of (listed r)))]) d)
      as (t & Eloop & Hreq & Hev).
    + intros j Hj. replace (page + 1 + j) with (page + S j) by lia.
      rewrite Hsrc by (cbn [List.length]; lia). reflexivity.
    + exact Hrest.
    + exists ([ListUsers page perPage;
               fetched_line (List.length (emails ++ emails_of (listed r)))]
              ++ t).
      split; [ | split ].
      * rewrite Eloop. cbn [flat_map]. rewrite <- !app_assoc.
        f_equal. lia.
      * cbn [app filter is_ListUsers fetched_line seq map]. rewrite Hreq.
        now rewrite Nat.add_1_r.
      * constructor; [ left; now exists page | ].
        constructor; [ right; now eexists | exact Hev ].
Qed.

(** Whatever the directory answers, the fetcher only requests pages and
    prints its progress. *)
Lemma fetch_only_fetches budget :
  forall page emails h res h',
    fetchAllEmails_loop budget page emails h = (res, h') ->
    exists t, h' = h ++ t /\ Forall fetch_event t.
Proof.
  induction budget as [ | budget IH]; intros page emails h res h' E.
  - cbn in E. injection E as <- <-. exists []. now rewrite app_nil_r.
  - assert (Hreq : fetch_event (ListUsers page perPage))
      by (left; now exists page).
    destruct (supabase_listUsers page perPage) as [r | e] eqn:Esrc.
    + destruct (list_error r) as [error | ] eqn:Eerr.
      * rewrite (fetch_step_error _ _ _ _ _ _ Esrc Eerr) in E.
        injection E as <- <-. eexists. split; [ reflexivity | ].
        now constructor.
      * destruct (Nat.eq_dec (List.length (listed r)) 0) as [H0 | H0];
          [ | destruct (Nat.lt_ge_cases (List.length (listed r)) perPage)
              as [Hlt | Hge] ].
        -- rewrite (fetch_step_empty _ _ _ _ _ Esrc Eerr H0) in E.
           injection E as <- <-. eexists. split; [ reflexivity | ].
           now constructor.
        -- rewrite (fetch_step_short _ _ _ _ _ Esrc Eerr) in E by lia.
           injection E as <- <-. eexists. split; [ reflexivity | ].
           constructor; [ exact Hreq | ].
           constructor; [ right; now eexists | constructor ].
        -- rewrite (fetch_step_full _ _ _ _ _ Esrc Eerr Hge) in E.
           apply IH in E as (t & -> & Ht).
           eexists. rewrite <- app_assoc. split; [ reflexivity | ].
           constructor; [ exact Hreq | ].
           constructor; [ right; now eexists | exact Ht ].
    + rewrite (fetch_step_rejected _ _ _ _ _ Esrc) in E.
      injection E as <- <-. eexists. split; [ reflexivity | ].
      now constructor.
Qed.

(** The fetcher does not stop at a full page: over full pages only, it
    is still running when the budget is used up. *)
Lemma fetch_keeps_going_on_full_pages (pages : list ListUsersResponse) h0 d :
  (forall j, j < List.length pages ->
             supabase_listUsers (1 + j) perPage = Resolved (nth j pages d)) ->
  Forall (fun r => list_error r = None /\ perPage <= List.length (listed r))
         pages ->
  exists t,
    fetchAllEmails (List.length pages) h0 = (Running, h0 ++ t)
    /\ filter is_ListUsers t
       = map (fun p => ListUsers p perPage) (seq 1 (List.length pages)).
Proof.
  intros Hsrc Hfull.
  destruct (fetch_full_pages pages 1 [] 0 h0 d Hsrc Hfull)
    as (t & Eloop & Hreq & _).
  exists t. unfold fetchAllEmails. rewrite Nat.add_0_r in Eloop.
  rewrite Eloop. split; [ reflexivity | exact Hreq ].
Qed.

(** C3. When the directory answers the requests for the pages
    [1 .. k] with full pages (at least [perPage] users, no error) and
    the request for page [k + 1] with fewer than [perPage] users (none,
    or a missing list, included), [fetchAllEmails] requests exactly the
    pages [1, 2, .., k + 1] in that order, once each, with the page
    size 1000, then returns the non-empty email fields of all those
    pages, in page order and in the order of each page. *)
Theorem fetchAllEmails_pages (pages : list ListUsersResponse)
    (last : ListUsersResponse) (budget : nat) (h0 : History) :
  (forall j, j < List.length pages ->
             supabase_listUsers (1 + j) perPage = Resolved (nth j pages last)) ->
  Forall (fun r => list_error r = None /\ perPage <= List.length (listed r))
         pages ->
  supabase_listUsers (1 + List.length pages) perPage = Resolved last ->
  list_error last = None ->
  List.length (listed last) < perPage ->
  List.length pages < budget ->
  exists t,
    fetchAllEmails budget h0
    = (Normal (flat_map (fun r => emails_of (listed r)) (pages ++ [last])),
       h0 ++ t)
    /\ filter is_ListUsers t
       = map (fun p => ListUsers p 1000) (seq 1 (List.length pages + 1))
    /\ Forall fetch_event t.
Proof.
  intros Hsrc Hfull Elast Eerr Hshort Hbudget.
  replace budget with (List.length pages + S (budget - List.length pages - 1))
    by lia.
  destruct (fetch_full_pages pages 1 [] (S (budget - List.length pages - 1))
              h0 last Hsrc Hfull) as (t & Eloop & Hreq & Hev).
  unfold fetchAllEmails. rewrite Eloop. cbn [app].
  rewrite flat_map_app. cbn [flat_map]. rewrite app_nil_r.
  assert (Hk : fetch_event (ListUsers (1 + List.length pages) perPage))
    by (left; now eexists).
  destruct (Nat.eq_dec (List.length (listed last)) 0) as [H0 | H0].
  - rewrite (fetch_step_empty _ _ _ _ _ Elast Eerr H0).
    apply length_zero_iff_nil in H0. rewrite H0. cbn [emails_of flat_map].
    rewrite app_nil_r.
    exists (t ++ [ListUsers (1 + List.length pages) perPage]).
    rewrite app_assoc. split; [ reflexivity | ]. split.
    + rewrite filter_app, Hreq, seq_app, map_app. reflexivity.
    + apply Forall_app. split; [ exact Hev | now constructor ].
  - rewrite (fetch_step_short _ _ _ _ _ Elast Eerr) by lia.
    eexists (t ++ [ListUsers (1 + List.length pages) perPage; _]).
    rewrite app_assoc. split; [ reflexivity | ]. split.
    + rewrite filter_app, Hreq, seq_app, map_app. reflexivity.
    + apply Forall_app. split; [ exact Hev | ].
      constructor; [ exact Hk | ].
      constructor; [ right; now eexists | constructor ].
Qed.

(** ** The run *)

(** [main], by the way the fetch completes. *)
Lemma main_after_fetch (budget : nat) :
  main budget []
  = match fetchAllEmails budget preamble with
    | (Normal emails, h) =>
        if List.length emails =? 0
        then (Normal tt,
              h ++ [found_line (List.length emails);
                    Stdout (no_emails_notice script)])
        else
          match sendBatches emails
                  (h ++ [found_line (List.length emails); sending_line]) with
          | (Normal c, h') => (Normal tt, h' ++ summary c)
          | (Throw e, h') => (Throw e, h')
          | (Running, h') => (Running, h')
          end
    | (Throw e, h) => (Throw e, h)
    | (Running, h) => (Running, h)
    end.
Proof.
  unfold main, bind, console_log, emit. cbn [app]. fold preamble.
  destruct (fetchAllEmails budget preamble) as [[emails | e | ] h];
    try reflexivity.
  unfold found_line, sending_line, summary.
  destruct (List.length emails =? 0).
  - unfold ret. now rewrite <- app_assoc.
  - rewrite <- app_assoc. cbn [app].
    destruct (sendBatches emails _) as [[c | e | ] h']; try reflexivity.
    unfold ret. now rewrite <- !app_assoc.
Qed.

Lemma preamble_reports_no_counts e count :
  In e preamble ->
  e <> Stdout (template ["  Sent: "; toString count])
  /\ e <> Stdout (template ["  Failed: "; toString count]).
Proof.
  unfold preamble.
  intros [<- | [<- | []]]; split; intros H;
    try discriminate H; destruct DRY_RUN; discriminate H.
Qed.

Lemma fetch_event_reports_no_counts e count :
  fetch_event e ->
  e <> Stdout (template ["  Sent: "; toString count])
  /\ e <> Stdout (template ["  Failed: "; toString count]).
Proof.
  intros [[page ->] | [m ->]]; split; intros H; discriminate H.
Qed.

Lemma found_line_reports_no_counts n count :
  found_line n <> Stdout (template ["  Sent: "; toString count])
  /\ found_line n <> Stdout (template ["  Failed: "; toString count]).
Proof. split; intros H; discriminate H. Qed.

(** A run that has only fetched, and has found nothing or has failed,
    has reported no count. *)
Lemma fetch_phase_reports_no_counts t tail :
  Forall fetch_event t ->
  (forall e count, In e tail ->
     e <> Stdout (template ["  Sent: "; toString count])
     /\ e <> Stdout (template ["  Failed: "; toString count])) ->
  ~ reports_counts (preamble ++ t ++ tail).
Proof.
  intros Ht Htail (count & Hin).
  assert (Hall : forall e, In e (preamble ++ t ++ tail) ->
                   e <> Stdout (template ["  Sent: "; toString count])
                   /\ e <> Stdout (template ["  Failed: "; toString count])).
  { intros e He. apply in_app_or in He as [He | He];
      [ now apply preamble_reports_no_counts | ].
    apply in_app_or in He as [He | He]; [ | now apply Htail ].
    apply fetch_event_reports_no_counts.
    rewrite Forall_forall in Ht. now apply Ht. }
  destruct Hin as [Hin | Hin]; apply Hall in Hin as [H1 H2]; congruence.
Qed.

Lemma fetch_events_make_no_calls t :
  Forall fetch_event t ->
  filter is_BatchSend t = [] /\ filter is_Pause t = [].
Proof.
  induction 1 as [ | e t He _ [IH1 IH2]]; [ now split | ].
  destruct He as [[page ->] | [m ->]]; cbn; now rewrite ?IH1, ?IH2.
Qed.

(** C7. When the request for page [p] settles with an error result,
    after full pages before it, [fetchAllEmails] throws: it returns no
    list; the error message names the page [p]; page [p] has been
    requested once, as the last request; [main] throws the same error
    and the process logs it and exits with status 1, having submitted no
    batch, made no pause and reported no sent or failed count. *)
Theorem fetch_error_is_fatal (pages : list ListUsersResponse)
    (bad : ListUsersResponse) (error : ServiceError) (budget : nat) :
  (forall j, j < List.length pages ->
             supabase_listUsers (1 + j) perPage = Resolved (nth j pages bad)) ->
  Forall (fun r => list_error r = None /\ perPage <= List.length (listed r))
         pages ->
  supabase_listUsers (1 + List.length pages) perPage = Resolved bad ->
  list_error bad = Some error ->
  List.length pages < budget ->
  let p := 1 + List.length pages in
  let err := {| message := template ["Supabase auth fetch failed at page ";
                                     toString p; ": "; error_message error] |} in
  exists t,
    fetchAllEmails budget preamble = (Throw err, preamble ++ t)
    /\ filter is_ListUsers t = map (fun q => ListUsers q perPage) (seq 1 p)
    /\ Forall fetch_event t
    /\ main budget [] = (Throw err, preamble ++ t)
    /\ run budget
       = (Some 1, preamble ++ t ++ [StderrError "Fatal error:" err; Exit 1])
    /\ filter is_BatchSend (snd (run budget)) = []
    /\ filter is_Pause (snd (run budget)) = []
    /\ ~ reports_counts (snd (run budget)).
Proof.
  intros Hsrc Hfull Ebad Eerr Hbudget p err.
  destruct (fetch_full_pages pages 1 [] (S (budget - List.length pages - 1))
              preamble bad Hsrc Hfull) as (t & Eloop & Hreq & Hev).
  assert (Hk : fetch_event (ListUsers p perPage)) by (left; now eexists).
  assert (Hall : Forall fetch_event (t ++ [ListUsers p perPage]))
    by (apply Forall_app; split; [ exact Hev | now constructor ]).
  assert (Efetch : fetchAllEmails budget preamble
                   = (Throw err, preamble ++ t ++ [ListUsers p perPage])).
  { unfold fetchAllEmails.
    replace budget with (List.length pages + S (budget - List.length pages - 1))
      by lia.
    rewrite Eloop, (fetch_step_error _ _ _ _ _ _ Ebad Eerr).
    now rewrite <- app_assoc. }
  assert (Emain : main budget []
                  = (Throw err, preamble ++ t ++ [ListUsers p perPage]))
    by now rewrite main_after_fetch, Efetch.
  assert (Erun : run budget
                 = (Some 1, preamble ++ (t ++ [ListUsers p perPage])
                              ++ [StderrError "Fatal error:" err; Exit 1])).
  { unfold run. rewrite Emain. now rewrite <- !app_assoc. }
  exists (t ++ [ListUsers p perPage]).
  split; [ exact Efetch | ].
  split.
  { rewrite filter_app, Hreq. subst p.
    replace (1 + List.length pages) with (List.length pages + 1) by lia.
    rewrite seq_app, map_app. cbn [filter is_ListUsers seq map].
    now rewrite (Nat.add_comm (List.length pages) 1). }
  split; [ exact Hall | ].
  split; [ exact Emain | ].
  split; [ exact Erun | ].
  rewrite Erun. cbn [snd].
  destruct (fetch_events_make_no_calls _ Hev) as [Hs Hp].
  split; [ | split ].
  - rewrite !filter_app, Hs. unfold preamble. reflexivity.
  - rewrite !filter_app, Hp. unfold preamble. reflexivity.
  - apply fetch_phase_reports_no_counts; [ exact Hall | ].
    intros e count [<- | [<- | []]]; split; intros H; discriminate H.
Qed.

(** C8, as the script has it.  A run whose fetch throws (an error result
    of the directory, or a fault of the call) logs the error on the
    error stream and exits with status 1.  A run whose fetch returns
    exits with status 0: when it found at least one address, after the
    dispatch, which always completes, and with the summary of the final
    counters as its last lines; when it found none, right after the
    notice that no email was found, having reported no count. *)
Theorem run_exit_status (budget : nat) :
  match fetchAllEmails budget preamble with
  | (Throw err, h) =>
      run budget = (Some 1, h ++ [StderrError "Fatal error:" err; Exit 1])
  | (Running, h) => run budget = (None, h)
  | (Normal [], h) =>
      run budget
      = (Some 0, h ++ [found_line 0; Stdout (no_emails_notice script)])
      /\ ~ reports_counts (h ++ [found_line 0])
  | (Normal emails, h) =>
      let h1 := h ++ [found_line (List.length emails); sending_line] in
      exists c t,
        sendBatches emails h1 = (Normal c, h1 ++ t)
        /\ sent c + failed c = List.length emails
        /\ run budget = (Some 0, h1 ++ t ++ summary c)
  end.
Proof.
  unfold run. rewrite main_after_fetch.
  destruct (fetchAllEmails budget preamble) as [[emails | e | ] h] eqn:Efetch;
    try reflexivity.
  destruct emails as [ | address emails].
  - split; [ reflexivity | ].
    apply fetch_only_fetches in Efetch as (t & -> & Ht).
    rewrite <- app_assoc.
    apply fetch_phase_reports_no_counts; [ exact Ht | ].
    intros e count [<- | []]. apply found_line_reports_no_counts.
  - cbn zeta.
    destruct (dispatch_completes (address :: emails)
                (h ++ [found_line (List.length (address :: emails));
                       sending_line]))
      as (c & t & Esend & Hsum).
    exists c, t. rewrite Esend. cbn [List.length Nat.eqb].
    repeat split; [ exact Hsum | now rewrite <- app_assoc ].
Qed.

(** ** The template *)

(** C9. [buildEmail] fills the sender with the configured address, the
    recipient with its argument, and the subject and the body with the
    fixed literals of the script; two messages differ in the recipient
    only.  The subject of [send.ts] is the literal of its source. *)
Theorem buildEmail_fixed_template (a b : string) :
  from (buildEmail a) = FROM_EMAIL
  /\ to (buildEmail a) = a
  /\ subject (buildEmail a) = subject_line script
  /\ html (buildEmail a) = html_body script
  /\ buildEmail a
     = {| from := from (buildEmail b);
          to := a;
          subject := subject (buildEmail b);
          html := html (buildEmail b) |}
  /\ subject_line send_ts = "hi from jia :3".
Proof. repeat split. Qed.

(** ** Nothing to send *)

(** C10. On the empty list [sendBatches] returns both counters at zero
    and leaves the history as it was: no call, no pause, no line.  And
    when the fetch returns no address, [main] prints the count found and
    the notice, then returns: neither the line that announces the
    dispatch nor a summary follows, and the process exits with 0. *)
Theorem nothing_to_send (budget : nat) (h0 : History) :
  sendBatches [] h0 = (Normal {| sent := 0; failed := 0 |}, h0)
  /\ forall h,
       fetchAllEmails budget preamble = (Normal [], h) ->
       main budget []
       = (Normal tt, h ++ [found_line 0; Stdout (no_emails_notice script)])
       /\ run budget
          = (Some 0, h ++ [found_line 0; Stdout (no_emails_notice script)])
       /\ (exists t, h = preamble ++ t /\ Forall fetch_event t)
       /\ ~ In sending_line (h ++ [found_line 0])
       /\ ~ reports_counts (h ++ [found_line 0]).
Proof.
  split; [ reflexivity | ].
  intros h Efetch.
  assert (Emain : main budget []
                  = (Normal tt,
                     h ++ [found_line 0; Stdout (no_emails_notice script)]))
    by now rewrite main_after_fetch, Efetch.
  split; [ exact Emain | ].
  split; [ unfold run; now rewrite Emain | ].
  apply fetch_only_fetches in Efetch as (t & -> & Ht).
  split; [ now exists t | ].
  split.
  - rewrite <- app_assoc. intros Hin.
    apply in_app_or in Hin as [Hin | Hin].
    + unfold preamble in Hin.
      destruct Hin as [H | [H | []]]; [ destruct DRY_RUN | ]; discriminate H.
    + apply in_app_or in Hin as [Hin | [H | []]]; [ | discriminate H ].
      rewrite Forall_forall in Ht.
      destruct (Ht _ Hin) as [[page H] | [m H]]; discriminate H.
  - rewrite <- app_assoc.
    apply fetch_phase_reports_no_counts; [ exact Ht | ].
    intros e count [<- | []]. apply found_line_reports_no_counts.
Qed.

(** ** Further properties of the configuration and the fetcher *)

Lemma DRY_RUN_spec : DRY_RUN = true <-> In "--dry-run" argv.
Proof.
  unfold DRY_RUN, includes. rewrite existsb_exists. split.
  - intros (a & Hin & E). apply String.eqb_eq in E. now subst a.
  - intros Hin. exists "--dry-run". split; [ exact Hin | apply String.eqb_refl ].
Qed.

Lemma fetch_loop_requests budget :
  forall page emails h,
  exists m res t,
    fetchAllEmails_loop budget page emails h = (res, h ++ t)
    /\ m <= budget
    /\ filter is_ListUsers t = map (fun p => ListUsers p perPage) (seq page m)
    /\ (res = Running -> m = budget)
    /\ (0 < budget -> 0 < m).
Proof.
  induction budget as [ | budget IH]; intros page emails h.
  - exists 0, Running, []. rewrite app_nil_r.
    repeat split; [ lia | intros H; inversion H ].
  - destruct (supabase_listUsers page perPage) as [r | e] eqn:Esrc.
    + destruct (list_error r) as [error | ] eqn:Eerr.
      * rewrite (fetch_step_error _ _ _ _ _ _ Esrc Eerr).
        exists 1. eexists _, _. split; [ reflexivity | ].
        repeat split; [ lia | discriminate | lia ].
      * destruct (Nat.eq_dec (List.length (listed r)) 0) as [H0 | H0];
          [ | destruct (Nat.lt_ge_cases (List.length (listed r)) perPage)
              as [Hlt | Hge] ].
        -- rewrite (fetch_step_empty _ _ _ _ _ Esrc Eerr H0).
           exists 1. eexists _, _. split; [ reflexivity | ].
           repeat split; [ lia | discriminate | lia ].
        -- rewrite (fetch_step_short _ _ _ _ _ Esrc Eerr) by lia.
           exists 1. eexists _, _. split; [ reflexivity | ].
           repeat split; [ lia | discriminate | lia ].
        -- rewrite (fetch_step_full _ _ _ _ _ Esrc Eerr Hge).
           destruct (IH (page + 1) (emails ++ emails_of (listed r))
                       (h ++ [ListUsers page perPage;
                              fetched_line
                                (List.length (emails ++ emails_of (listed r)))]))
             as (m & res & t & E & Hm & Hreq & Hrun & _).
           exists (S m), res. eexists. rewrite E, <- app_assoc.
           split; [ reflexivity | ].
           cbn [app filter is_ListUsers fetched_line seq map].
           rewrite Hreq, Nat.add_1_r.
           repeat split; [ lia | | lia ].
           intros Hres. now rewrite (Hrun Hres).
    + rewrite (fetch_step_rejected _ _ _ _ _ Esrc).
      exists 1. eexists _, _. split; [ reflexivity | ].
      repeat split; [ lia | discriminate | lia ].
Qed.

(** X2. Whatever the directory answers and however the fetch ends
    (return, throw, or still running when the budget is used up), the
    pages requested are [1, 2, .., m] in this order, once each, all with
    the page size 1000; [m] is at least 1 and at most the number of loop
    iterations made. *)
Theorem fetch_requests_are_consecutive (budget : nat) (h0 : History) :
  exists m res t,
    fetchAllEmails budget h0 = (res, h0 ++ t)
    /\ filter is_ListUsers t = map (fun p => ListUsers p 1000) (seq 1 m)
    /\ m <= budget
    /\ (res = Running -> m = budget)
    /\ (budget = 0 \/ 1 <= m).
Proof.
  destruct (fetch_loop_requests budget 1 [] h0)
    as (m & res & t & E & Hm & Hreq & Hrun & Hpos).
  exists m, res, t. repeat split; try assumption.
  destruct budget; [ now left | right; apply Hpos; lia ].
Qed.

Lemma emails_of_nonempty (us : list User) :
  Forall (fun a => a <> EmptyString) (emails_of us).
Proof.
  unfold emails_of. induction us as [ | user us IH]; [ constructor | ].
  cbn [flat_map]. apply Forall_app. split; [ | exact IH ].
  unfold nonempty_email.
  destruct (email user) as [[ | c a] | ]; repeat constructor. discriminate.
Qed.

Lemma fetch_loop_keeps (P : string -> Prop) :
  (forall us, Forall P (emails_of us)) ->
  forall budget page emails h emails' h',
    Forall P emails ->
    fetchAllEmails_loop budget page emails h = (Normal emails', h') ->
    Forall P emails'.
Proof.
  intros HP.
  induction budget as [ | budget IH]; intros page emails h emails' h' Hacc E.
  - discriminate E.
  - destruct (supabase_listUsers page perPage) as [r | e] eqn:Esrc.
    + destruct (list_error r) as [error | ] eqn:Eerr.
      * rewrite (fetch_step_error _ _ _ _ _ _ Esrc Eerr) in E. discriminate E.
      * destruct (Nat.eq_dec (List.length (listed r)) 0) as [H0 | H0];
          [ | destruct (Nat.lt_ge_cases (List.length (listed r)) perPage)
              as [Hlt | Hge] ].
        -- rewrite (fetch_step_empty _ _ _ _ _ Esrc Eerr H0) in E.
           injection E as <- _. exact Hacc.
        -- rewrite (fetch_step_short _ _ _ _ _ Esrc Eerr) in E by lia.
           injection E as <- _. apply Forall_app. split; [ exact Hacc | apply HP ].
        -- rewrite (fetch_step_full _ _ _ _ _ Esrc Eerr Hge) in E.
           apply IH in E; [ exact E | ].
           apply Forall_app. split; [ exact Hacc | apply HP ].
    + rewrite (fetch_step_rejected _ _ _ _ _ Esrc) in E. discriminate E.
Qed.

(** X3. Whatever the directory answers, no address that
    [fetchAllEmails] returns is the empty string. *)
Theorem fetched_addresses_are_nonempty (budget : nat) (h0 h : History)
    (emails : list string) :
  fetchAllEmails budget h0 = (Normal emails, h) ->
  Forall (fun a => a <> EmptyString) emails.
Proof.
  apply (fetch_loop_keeps _ emails_of_nonempty). constructor.
Qed.

(** X4. When a page request fails with a fault (a rejected call, not an
    error result), after full pages, [fetchAllEmails] throws that very
    fault, unwrapped, having requested no further page; the process
    logs it and exits with status 1, with no batch submitted and no
    count reported. *)
Theorem fetch_fault_is_fatal (pages : list ListUsersResponse)
    (d : ListUsersResponse) (fault : JsError) (budget : nat) :
  (forall j, j < List.length pages ->
             supabase_listUsers (1 + j) perPage = Resolved (nth j pages d)) ->
  Forall (fun r => list_error r = None /\ perPage <= List.length (listed r))
         pages ->
  supabase_listUsers (1 + List.length pages) perPage = Rejected fault ->
  List.length pages < budget ->
  exists t,
    fetchAllEmails budget preamble = (Throw fault, preamble ++ t)
    /\ filter is_ListUsers t
       = map (fun q => ListUsers q perPage) (seq 1 (List.length pages + 1))
    /\ run budget
       = (Some 1, preamble ++ t ++ [StderrError "Fatal error:" fault; Exit 1])
    /\ filter is_BatchSend (snd (run budget)) = []
    /\ ~ reports_counts (snd (run budget)).
Proof.
  intros Hsrc Hfull Ebad Hbudget.
  destruct (fetch_full_pages pages 1 [] (S (budget - List.length pages - 1))
              preamble d Hsrc Hfull) as (t & Eloop & Hreq & Hev).
  set (p := 1 + List.length pages) in *.
  assert (Hall : Forall fetch_event (t ++ [ListUsers p perPage])).
  { apply Forall_app. split; [ exact Hev | ].
    constructor; [ left; now eexists | constructor ]. }
  assert (Efetch : fetchAllEmails budget preamble
                   = (Throw fault, preamble ++ t ++ [ListUsers p perPage])).
  { unfold fetchAllEmails.
    replace budget with (List.length pages + S (budget - List.length pages - 1))
      by lia.
    rewrite Eloop, (fetch_step_rejected _ _ _ _ _ Ebad).
    now rewrite <- app_assoc. }
  assert (Erun : run budget
                 = (Some 1, preamble ++ (t ++ [ListUsers p perPage])
                              ++ [StderrError "Fatal error:" fault; Exit 1])).
  { unfold run. rewrite main_after_fetch, Efetch. now rewrite <- !app_assoc. }
  exists (t ++ [ListUsers p perPage]).
  split; [ exact Efetch | ].
  split.
  { rewrite filter_app, Hreq, seq_app, map_app. reflexivity. }
  split; [ exact Erun | ].
  rewrite Erun. cbn [snd].
  destruct (fetch_events_make_no_calls _ Hev) as [Hs _].
  split.
  - rewrite !filter_app, Hs. unfold preamble. reflexivity.
  - apply fetch_phase_reports_no_counts; [ exact Hall | ].
    intros e count [<- | [<- | []]]; split; intros H; discriminate H.
Qed.

Lemma fetch_loop_full_forever :
  (forall p, 1 <= p ->
     exists r, supabase_listUsers p perPage = Resolved r
               /\ list_error r = None
               /\ perPage <= List.length (listed r)) ->
  forall budget page emails h,
    1 <= page ->
    exists t,
      fetchAllEmails_loop budget page emails h = (Running, h ++ t)
      /\ filter is_ListUsers t
         = map (fun p => ListUsers p perPage) (seq page budget).
Proof.
  intros Hfull.
  induction budget as [ | budget IH]; intros page emails h Hpage.
  - exists []. now rewrite app_nil_r.
  - destruct (Hfull page Hpage) as (r & Esrc & Eerr & Hlen).
    rewrite (fetch_step_full _ _ _ _ _ Esrc Eerr Hlen).
    destruct (IH (page + 1) (emails ++ emails_of (listed r))
                (h ++ [ListUsers page perPage;
                       fetched_line
                         (List.length (emails ++ emails_of (listed r)))]))
      as (t & E & Hreq); [ lia | ].
    eexists. rewrite E, <- app_assoc. split; [ reflexivity | ].
    cbn [app filter is_ListUsers fetched_line seq map].
    now rewrite Hreq, Nat.add_1_r.
Qed.

(** X5. On a directory all of whose pages are full the fetcher never
    returns: after any number of iterations it is still running, having
    requested one page per iteration, and the run has no exit status
    and has submitted nothing. *)
Theorem fetch_never_returns_on_full_pages (budget : nat) :
  (forall p, 1 <= p ->
     exists r, supabase_listUsers p perPage = Resolved r
               /\ list_error r = None
               /\ perPage <= List.length (listed r)) ->
  exists t,
    fetchAllEmails budget preamble = (Running, preamble ++ t)
    /\ filter is_ListUsers t
       = map (fun p => ListUsers p perPage) (seq 1 budget)
    /\ run budget = (None, preamble ++ t)
    /\ filter is_BatchSend (snd (run budget)) = [].
Proof.
  intros Hfull.
  destruct (fetch_loop_full_forever Hfull budget 1 [] preamble (le_n 1))
    as (t & E & Hreq).
  assert (Erun : run budget = (None, preamble ++ t)).
  { unfold run. rewrite main_after_fetch. unfold fetchAllEmails. now rewrite E. }
  exists t. repeat split; try assumption.
  rewrite Erun. cbn [snd].
  pose proof E as E'. apply fetch_only_fetches in E' as (t' & Et & Hev).
  apply app_inv_head in Et. subst t'.
  destruct (fetch_events_make_no_calls _ Hev) as [Hs _].
  rewrite filter_app, Hs. unfold preamble. reflexivity.
Qed.

(** ** Further properties of the dispatcher *)

Lemma submitted_dispatch_trace h0 emails k :
  DRY_RUN = false ->
  flat_map submitted (dispatch_trace h0 emails k)
  = map buildEmail (firstn (k * BATCH_SIZE) emails).
Proof.
  intros Edry. induction k as [ | k IH]; [ reflexivity | ].
  rewrite dispatch_trace_S, flat_map_app, IH.
  rewrite Nat.mul_succ_l, <- (firstn_slice (k * BATCH_SIZE) BATCH_SIZE), map_app.
  f_equal. unfold chunk_events. rewrite Edry. fold (chunk emails k).
  unfold report.
  destruct (answer h0 emails k) as [r | e];
    [ destruct (send_error r) | ]; destruct (_ <? _);
    cbn [flat_map submitted app]; now rewrite ?app_nil_r.
Qed.

(** X6. In normal mode the messages handed to the sender, over all the
    calls of a dispatch and in their order, are [buildEmail] of every
    recipient of the list in order: every recipient is addressed exactly
    once, whatever the sender answers. *)
Theorem every_recipient_is_mailed_once (emails : list string) (h0 : History) :
  DRY_RUN = false ->
  exists c t,
    sendBatches emails h0 = (Normal c, h0 ++ t)
    /\ flat_map submitted t = map buildEmail emails
    /\ map to (flat_map submitted t) = emails.
Proof.
  intros Edry.
  assert (E : flat_map submitted
                (dispatch_trace h0 emails
                   (ceil_div (List.length emails) BATCH_SIZE))
              = map buildEmail emails).
  { rewrite (submitted_dispatch_trace h0 emails _ Edry). f_equal.
    apply firstn_all2. apply (ceil_div_bounds _ _ BATCH_SIZE_pos). }
  eexists _, _. split; [ apply sendBatches_spec | ].
  split; [ exact E | ].
  rewrite E, map_map. cbn [to buildEmail]. apply map_id.
Qed.

(** X7. Whatever the mode and whatever the sender answers, no call of a
    dispatch hands the sender more than 100 messages, or none; and in
    normal mode the sender is called [ceil(L / 100)] times, in
    simulation mode never. *)
Theorem batch_calls_within_limit (emails : list string) (h0 : History) :
  exists c t,
    sendBatches emails h0 = (Normal c, h0 ++ t)
    /\ Forall (fun e => is_BatchSend e = true ->
                        1 <= List.length (submitted e) <= 100) t
    /\ calls_before t
       = if DRY_RUN then 0 else ceil_div (List.length emails) 100.
Proof.
  eexists _, _. split; [ apply sendBatches_spec | ].
  split; [ | apply calls_before_dispatch_trace ].
  unfold dispatch_trace. apply Forall_flat_map, Forall_forall.
  intros j Hj. apply in_seq in Hj.
  pose proof (chunk_bounds emails j ltac:(lia)) as Hlen.
  unfold chunk_events, report.
  destruct DRY_RUN; [ repeat constructor; discriminate | ].
  constructor.
  - intros _. cbn [submitted]. rewrite length_map. exact Hlen.
  - destruct (answer h0 emails j) as [r | e];
      [ destruct (send_error r) | ]; destruct (_ <? _);
      repeat constructor; discriminate.
Qed.

Lemma stderr_dispatch_trace h0 emails k :
  DRY_RUN = false ->
  List.length (filter is_Stderr (dispatch_trace h0 emails k))
  = List.length (filter (fun j => refused (answer h0 emails j)) (seq 0 k)).
Proof.
  intros Edry. induction k as [ | k IH]; [ reflexivity | ].
  rewrite dispatch_trace_S, seq_S, !filter_app, !length_app, IH. f_equal.
  unfold chunk_events. rewrite Edry. unfold report, refused.
  cbn [filter Nat.add].
  destruct (answer h0 emails k) as [r | e];
    [ destruct (send_error r) | ]; destruct (_ <? _); reflexivity.
Qed.

Lemma failed_after_zero h0 emails k :
  DRY_RUN = false ->
  k <= ceil_div (List.length emails) BATCH_SIZE ->
  failed_after h0 emails k = 0
  <-> filter (fun j => refused (answer h0 emails j)) (seq 0 k) = [].
Proof.
  intros Edry. induction k as [ | k IH]; intros Hk; [ now split | ].
  rewrite failed_after_S, seq_S, filter_app.
  pose proof (chunk_bounds emails k ltac:(lia)) as Hlen.
  specialize (IH ltac:(lia)).
  unfold accepted. rewrite Edry. cbn [filter Nat.add].
  destruct (refused (answer h0 emails k)); cbn [negb].
  - split; [ lia | ]. intros H. apply app_eq_nil in H as [_ H]. discriminate H.
  - rewrite Nat.add_0_r, app_nil_r. exact IH.
Qed.

(** X8. In normal mode a dispatch prints one line on the error stream
    per refused chunk and none otherwise; so [failed] is 0 exactly when
    nothing was printed on the error stream, and exactly when [sent] is
    the number of recipients. *)
Theorem failed_batches_are_logged (emails : list string) (h0 : History) :
  DRY_RUN = false ->
  exists c t,
    sendBatches emails h0 = (Normal c, h0 ++ t)
    /\ List.length (filter is_Stderr t)
       = List.length
           (filter (fun j => refused
                               (resend_batch_send (calls_before h0 + j)
                                  (map buildEmail (nth j (batches emails) []))))
                   (seq 0 (List.length (batches emails))))
    /\ (failed c = 0 <-> filter is_Stderr t = [])
    /\ (failed c = 0 <-> sent c = List.length emails).
Proof.
  intros Edry.
  set (n := ceil_div (List.length emails) BATCH_SIZE).
  assert (En : List.length (batches emails) = n)
    by now rewrite batches_chunks, length_map, length_seq.
  pose proof (stderr_dispatch_trace h0 emails n Edry) as Hcount.
  exists (tally h0 emails n), (dispatch_trace h0 emails n).
  split; [ apply sendBatches_spec | ].
  split; [ | split ].
  - rewrite Hcount, En. f_equal. apply filter_ext_in. intros j Hj.
    apply in_seq in Hj. rewrite nth_batches by (rewrite En; lia). reflexivity.
  - unfold tally; cbn [failed].
    rewrite (failed_after_zero h0 emails n Edry (le_n n)).
    rewrite <- !length_zero_iff_nil, Hcount. reflexivity.
  - pose proof (tally_total h0 emails n) as Hsum.
    rewrite firstn_all2 in Hsum by apply (ceil_div_bounds _ _ BATCH_SIZE_pos).
    unfold tally; cbn [sent failed]. lia.
Qed.

(** ** Further properties of the run *)

Lemma requests_dispatch_trace_none h0 emails k :
  filter is_ListUsers (dispatch_trace h0 emails k) = [].
Proof.
  induction k as [ | k IH]; [ reflexivity | ].
  rewrite dispatch_trace_S, filter_app, IH.
  unfold chunk_events, report.
  destruct DRY_RUN; [ reflexivity | ].
  destruct (answer h0 emails k) as [r | e];
    [ destruct (send_error r) | ]; destruct (_ <? _); reflexivity.
Qed.

(** X9. In every run the directory is read to the end before the first
    batch goes out: the history of the run is the history of the fetch
    followed by a rest; the fetch holds no call to the sender and no
    pause, the rest holds no page request. *)
Theorem fetch_completes_before_dispatch (budget : nat) :
  exists rest,
    snd (run budget) = snd (fetchAllEmails budget preamble) ++ rest
    /\ filter is_BatchSend (snd (fetchAllEmails budget preamble)) = []
    /\ filter is_Pause (snd (fetchAllEmails budget preamble)) = []
    /\ filter is_ListUsers rest = [].
Proof.
  unfold run. rewrite main_after_fetch.
  destruct (fetchAllEmails budget preamble) as [res h] eqn:Efetch.
  pose proof Efetch as Hf.
  apply fetch_only_fetches in Hf as (t & Eh & Hev).
  destruct (fetch_events_make_no_calls _ Hev) as [Hs Hp].
  assert (Hquiet : filter is_BatchSend h = [] /\ filter is_Pause h = []).
  { subst h. rewrite !filter_app, Hs, Hp. unfold preamble. now split. }
  destruct Hquiet as [Hs' Hp'].
  cbn [snd].
  destruct res as [emails | e | ].
  - destruct (List.length emails =? 0).
    + eexists. cbn [snd]. repeat split; assumption.
    + rewrite sendBatches_spec. cbn [snd].
      eexists. rewrite <- !app_assoc. split; [ reflexivity | ].
      repeat split; try assumption.
      rewrite !filter_app, requests_dispatch_trace_none. reflexivity.
  - eexists. cbn [snd]. repeat split; assumption.
  - exists []. cbn [snd]. rewrite app_nil_r. repeat split; assumption.
Qed.

(** ** Further properties of the chunking *)

Lemma chunk_alt (emails : list string) (j : nat) :
  chunk emails j = firstn BATCH_SIZE (skipn (j * BATCH_SIZE) emails).
Proof.
  unfold chunk. rewrite slice_firstn_skipn by lia. f_equal. lia.
Qed.

Lemma map_seq_constant (f : nat -> nat) (c : nat) (len : nat) :
  forall start,
    (forall j, start <= j < start + len -> f j = c) ->
    map f (seq start len) = repeat c len.
Proof.
  induction len as [ | len IH]; intros start Hf; [ reflexivity | ].
  cbn [seq map repeat]. rewrite Hf by lia. f_equal. apply IH.
  intros j Hj. apply Hf. lia.
Qed.

(** X10. The sizes of the batches of [L] recipients are [L / 100] times
    100, followed by [L mod 100] when that is not zero. *)
Theorem batch_sizes (emails : list string) :
  let L := List.length emails in
  map (@List.length string) (batches emails)
  = repeat 100 (L / 100) ++ (if L mod 100 =? 0 then [] else [L mod 100]).
Proof.
  intros L. rewrite batches_chunks, map_map. fold L.
  change 100 with BATCH_SIZE.
  pose proof BATCH_SIZE_pos as HB.
  pose proof (Nat.div_mod_eq L BATCH_SIZE) as Hdm.
  pose proof (Nat.mod_upper_bound L BATCH_SIZE ltac:(lia)) as Hm.
  assert (Hfull : map (fun j => List.length (chunk emails j))
                      (seq 0 (L / BATCH_SIZE))
                  = repeat BATCH_SIZE (L / BATCH_SIZE)).
  { apply map_seq_constant. intros j Hj. rewrite chunk_length. fold L. nia. }
  unfold ceil_div. destruct (Nat.eqb_spec (L mod BATCH_SIZE) 0) as [E | E].
  - now rewrite Hfull, app_nil_r.
  - rewrite seq_app, map_app, Hfull. cbn [seq map Nat.add]. do 2 f_equal.
    rewrite chunk_length. fold L. nia.
Qed.

(** X11. The recipient at index [i] of the list is the element
    [i mod 100] of batch [i / 100]. *)
Theorem recipient_position (emails : list string) (i : nat) (d : string) :
  i < List.length emails ->
  nth (i mod 100) (nth (i / 100) (batches emails) []) d = nth i emails d.
Proof.
  intros Hi. change 100 with BATCH_SIZE.
  pose proof BATCH_SIZE_pos as HB.
  pose proof (Nat.div_mod_eq i BATCH_SIZE) as Hdm.
  pose proof (Nat.mod_upper_bound i BATCH_SIZE ltac:(lia)) as Hm.
  destruct (ceil_div_bounds (List.length emails) BATCH_SIZE HB) as [Hlo _].
  rewrite nth_batches.
  - rewrite chunk_alt, nth_firstn.
    destruct (Nat.ltb_spec (i mod BATCH_SIZE) BATCH_SIZE) as [_ | Hge];
      [ | lia ].
    rewrite nth_skipn. f_equal. lia.
  - rewrite batches_chunks, length_map, length_seq. nia.
Qed.

Lemma ceil_div_add_multiple (m x : nat) :
  ceil_div (m * BATCH_SIZE + x) BATCH_SIZE = m + ceil_div x BATCH_SIZE.
Proof.
  symmetry.
  destruct (ceil_div_bounds x BATCH_SIZE BATCH_SIZE_pos) as [Hlo Hhi].
  apply ceil_div_unique; [ apply BATCH_SIZE_pos | nia | nia ].
Qed.

Lemma map_seq_offset {X : Type} (f : nat -> X) (m len : nat) :
  map f (seq m len) = map (fun j => f (m + j)) (seq 0 len).
Proof.
  induction len as [ | len IH]; [ reflexivity | ].
  now rewrite !seq_S, !map_app, IH.
Qed.

(** X12. Chunking composes at a batch boundary: when the length of a
    list is a multiple of 100, the batches of that list followed by
    another are the batches of the first followed by the batches of the
    second. *)
Theorem batches_app (a b : list string) (m : nat) :
  List.length a = m * 100 ->
  batches (a ++ b) = batches a ++ batches b.
Proof.
  change 100 with BATCH_SIZE. intros Ha.
  pose proof BATCH_SIZE_pos as HB.
  rewrite !batches_chunks, length_app, Ha, ceil_div_add_multiple.
  replace (ceil_div (m * BATCH_SIZE) BATCH_SIZE) with m
    by (rewrite <- (Nat.add_0_r (m * BATCH_SIZE)), ceil_div_add_multiple;
        unfold ceil_div; rewrite Nat.Div0.mod_0_l, Nat.Div0.div_0_l;
        cbn; lia).
  rewrite seq_app, map_app. f_equal.
  - apply map_ext_in. intros j Hj. apply in_seq in Hj.
    rewrite !chunk_alt, skipn_app, firstn_app, length_skipn.
    replace (BATCH_SIZE - (List.length a - j * BATCH_SIZE)) with 0 by nia.
    now rewrite firstn_O, app_nil_r.
  - cbn [Nat.add]. rewrite map_seq_offset. apply map_ext. intros j.
    rewrite !chunk_alt, skipn_app.
    rewrite (skipn_all2 a) by nia. cbn [app]. do 2 f_equal. nia.
Qed.

(** ** What a run depends on *)

Lemma list_sum_zero {X : Type} (f : X -> nat) (l : list X) :
  (forall x, In x l -> f x = 0) -> list_sum (map f l) = 0.
Proof.
  induction l as [ | x l IH]; intros Hf; [ reflexivity | ].
  cbn [map]. rewrite list_sum_cons, Hf by now left.
  apply IH. intros y Hy. apply Hf. now right.
Qed.

Lemma tally_all_accepted h0 emails :
  (forall j, j < ceil_div (List.length emails) BATCH_SIZE ->
             accepted h0 emails j = true) ->
  tally h0 emails (ceil_div (List.length emails) BATCH_SIZE)
  = {| sent := List.length emails; failed := 0 |}.
Proof.
  intros Hacc.
  set (n := ceil_div (List.length emails) BATCH_SIZE) in *.
  assert (Hf : failed_after h0 emails n = 0).
  { unfold failed_after. apply list_sum_zero. intros j Hj.
    apply in_seq in Hj. now rewrite Hacc by lia. }
  pose proof (tally_total h0 emails n) as Hsum.
  rewrite firstn_all2 in Hsum by apply (ceil_div_bounds _ _ BATCH_SIZE_pos).
  unfold tally. f_equal; lia.
Qed.

(** The whole dispatch in simulation mode. *)
Lemma sendBatches_dry_run emails h0 :
  DRY_RUN = true ->
  sendBatches emails h0
  = (Normal {| sent := List.length emails; failed := 0 |},
     h0 ++ map (dry_run_line (List.length emails))
             (combine (seq 1 (ceil_div (List.length emails) BATCH_SIZE))
                      (map (chunk emails)
                           (seq 0 (ceil_div (List.length emails) BATCH_SIZE))))).
Proof.
  intros Edry.
  rewrite sendBatches_spec, (dispatch_trace_dry _ _ _ Edry), tally_all_accepted.
  - reflexivity.
  - intros j _. unfold accepted. now rewrite Edry.
Qed.

(** The exit status, by the completion of the fetch alone. *)
Lemma run_status (budget : nat) :
  fst (run budget)
  = match fst (fetchAllEmails budget preamble) with
    | Normal _ => Some 0
    | Throw _ => Some 1
    | Running => None
    end.
Proof.
  unfold run. rewrite main_after_fetch.
  destruct (fetchAllEmails budget preamble) as [[emails | e | ] h];
    try reflexivity.
  cbn [fst]. destruct (List.length emails =? 0); [ reflexivity | ].
  now rewrite sendBatches_spec.
Qed.

(** The page requests of a run are those of its fetch. *)
Lemma run_requests (budget : nat) :
  filter is_ListUsers (snd (run budget))
  = filter is_ListUsers (snd (fetchAllEmails budget preamble)).
Proof.
  unfold run. rewrite main_after_fetch.
  destruct (fetchAllEmails budget preamble) as [[emails | e | ] h];
    cbn [snd]; try reflexivity.
  - destruct (List.length emails =? 0); cbn [snd].
    + rewrite filter_app. cbn. now rewrite app_nil_r.
    + rewrite sendBatches_spec. cbn [snd].
      rewrite !filter_app, requests_dispatch_trace_none. cbn.
      now rewrite !app_nil_r.
  - rewrite filter_app. cbn. now rewrite app_nil_r.
Qed.

(** The fetch does the same from any history. *)
Lemma fetch_loop_frame budget :
  forall page emails h h',
  exists res t,
    fetchAllEmails_loop budget page emails h = (res, h ++ t)
    /\ fetchAllEmails_loop budget page emails h' = (res, h' ++ t).
Proof.
  induction budget as [ | budget IH]; intros page emails h h'.
  - exists Running, []. now rewrite !app_nil_r.
  - destruct (supabase_listUsers page perPage) as [r | e] eqn:Esrc.
    + destruct (list_error r) as [error | ] eqn:Eerr.
      * rewrite !(fetch_step_error _ _ _ _ _ _ Esrc Eerr).
        eexists _, _. split; reflexivity.
      * destruct (Nat.eq_dec (List.length (listed r)) 0) as [H0 | H0];
          [ | destruct (Nat.lt_ge_cases (List.length (listed r)) perPage)
              as [Hlt | Hge] ].
        -- rewrite !(fetch_step_empty _ _ _ _ _ Esrc Eerr H0).
           eexists _, _. split; reflexivity.
        -- rewrite !(fetch_step_short _ _ _ _ _ Esrc Eerr) by lia.
           eexists _, _. split; reflexivity.
        -- rewrite !(fetch_step_full _ _ _ _ _ Esrc Eerr Hge).
           destruct (IH (page + 1) (emails ++ emails_of (listed r))
                       (h ++ [ListUsers page perPage;
                              fetched_line
                                (List.length (emails ++ emails_of (listed r)))])
                       (h' ++ [ListUsers page perPage;
                               fetched_line
                                 (List.length (emails ++ emails_of (listed r)))]))
             as (res & t & E1 & E2).
           rewrite E1, E2, <- !app_assoc. eexists _, _. split; reflexivity.
    + rewrite !(fetch_step_rejected _ _ _ _ _ Esrc).
      eexists _, _. split; reflexivity.
Qed.

(** ** The mode and the mail of a whole run *)

Lemma run_begins_with_preamble (budget : nat) :
  exists rest, snd (run budget) = preamble ++ rest.
Proof.
  unfold run. rewrite main_after_fetch.
  destruct (fetchAllEmails budget preamble) as [res h] eqn:Efetch.
  apply fetch_only_fetches in Efetch as (t & -> & _).
  destruct res as [emails | e | ]; cbn [snd].
  - destruct (List.length emails =? 0); cbn [snd].
    + eexists. now rewrite <- app_assoc.
    + rewrite sendBatches_spec. cbn [snd]. eexists.
      now rewrite <- !app_assoc.
  - eexists. now rewrite <- app_assoc.
  - now eexists.
Qed.

Lemma run_calls (budget : nat) :
  calls_before (snd (run budget))
  = match fetchAllEmails budget preamble with
    | (Normal emails, _) =>
        if DRY_RUN then 0 else ceil_div (List.length emails) BATCH_SIZE
    | _ => 0
    end.
Proof.
  unfold run. rewrite main_after_fetch.
  destruct (fetchAllEmails budget preamble) as [res h] eqn:Efetch.
  apply fetch_only_fetches in Efetch as (t & -> & Hev).
  destruct (fetch_events_make_no_calls _ Hev) as [Hs _].
  assert (Hp0 : calls_before preamble = 0) by reflexivity.
  assert (Ht0 : calls_before t = 0) by (unfold calls_before; now rewrite Hs).
  destruct res as [emails | e | ]; cbn [snd].
  - destruct (Nat.eqb_spec (List.length emails) 0) as [E | E]; cbn [snd].
    + rewrite !calls_before_app, Hp0, Ht0, E. now destruct DRY_RUN.
    + rewrite sendBatches_spec. cbn [snd].
      rewrite !calls_before_app, Hp0, Ht0, calls_before_dispatch_trace.
      cbn. lia.
  - now rewrite !calls_before_app, Hp0, Ht0.
  - now rewrite calls_before_app, Hp0, Ht0.
Qed.

(** X1. The flag [--dry-run], spelled exactly so and given anywhere on
    the command line, decides the mode of the whole run: with it the
    run opens with the simulation banner and never calls the sender;
    without it the run opens with the sending banner and, when the
    fetch returns [L] addresses, calls the sender [ceil(L / 100)]
    times. *)
Theorem flag_decides_the_mode (budget : nat) :
  (DRY_RUN = true <-> In "--dry-run" argv)
  /\ hd_error (snd (run budget))
     = Some (Stdout (if DRY_RUN then "=== DRY RUN MODE ==="
                     else "=== SENDING EMAILS ==="))
  /\ calls_before (snd (run budget))
     = match fetchAllEmails budget preamble with
       | (Normal emails, _) =>
           if DRY_RUN then 0 else ceil_div (List.length emails) 100
       | _ => 0
       end.
Proof.
  split; [ exact DRY_RUN_spec | ].
  split; [ | exact (run_calls budget) ].
  destruct (run_begins_with_preamble budget) as (rest & E).
  rewrite E. reflexivity.
Qed.

Lemma submitted_fetch_events t :
  Forall fetch_event t -> flat_map submitted t = [].
Proof.
  induction 1 as [ | e t He _ IH]; [ reflexivity | ].
  cbn [flat_map]. rewrite IH.
  destruct He as [[page ->] | [count ->]]; reflexivity.
Qed.

(** X18. A real run mails what it fetched: when the fetch returns a
    list of addresses, the messages handed to the sender over the whole
    run are [buildEmail] of each of them, once, in the order fetched,
    and the run exits with status 0 whatever the sender answers. *)
Theorem run_mails_what_it_fetched (budget : nat) (emails : list string)
    (h : History) :
  DRY_RUN = false ->
  fetchAllEmails budget preamble = (Normal emails, h) ->
  flat_map submitted (snd (run budget)) = map buildEmail emails
  /\ fst (run budget) = Some 0.
Proof.
  intros Edry Efetch.
  split; [ | now rewrite run_status, Efetch ].
  unfold run. rewrite main_after_fetch, Efetch.
  apply fetch_only_fetches in Efetch as (t & -> & Hev).
  assert (Hp : flat_map submitted preamble = []) by reflexivity.
  pose proof (submitted_fetch_events _ Hev) as Ht.
  destruct emails as [ | address emails].
  - cbn [List.length Nat.eqb snd]. rewrite !flat_map_app, Hp, Ht. reflexivity.
  - cbn [List.length Nat.eqb]. rewrite sendBatches_spec. cbn [snd].
    rewrite !flat_map_app, Hp, Ht, (submitted_dispatch_trace _ _ _ Edry).
    cbn [flat_map submitted found_line sending_line summary app].
    rewrite app_nil_r. f_equal. apply firstn_all2.
    apply (ceil_div_bounds _ _ BATCH_SIZE_pos).
Qed.

End Script.


(** ** The scripts on the scenarios *)

(** A whole run of the follow-up script on a small directory. *)
Example followup_run :
  run node_argv sender_address send_followup_ts small_directory
    accepting_sender 3
  = (Some 0,
     [Stdout "=== SENDING EMAILS ===";
      Stdout (template [nl; "1. Fetching emails from Supabase..."]);
      ListUsers 1 1000;
      Stdout "  Fetched 2 emails so far...";
      Stdout (template ["   Found 2 emails"; nl]);
      Stdout (template ["2. Sending in batches of 100..."; nl]);
      BatchSend (map (buildEmail sender_address send_followup_ts)
                     ["ada@example.com"; "lin@example.com"]);
      Stdout "  Batch 1/1 sent (2/2 done)";
      Stdout (template [nl; "=== DONE ==="]);
      Stdout "  Sent: 2";
      Stdout "  Failed: 0"]).
Proof. vm_compute. reflexivity. Qed.

(** The launch script on a directory without users. *)
Example launch_run_without_users :
  run dry_run_argv sender_address send_launch_ts empty_directory
    accepting_sender 3
  = (Some 0,
     [Stdout "=== DRY RUN MODE ===";
      Stdout (template [nl; "1. Fetching emails from Supabase..."]);
      ListUsers 1 1000;
      Stdout (template ["   Found 0 emails"; nl]);
      Stdout "No emails found."]).
Proof. vm_compute. reflexivity. Qed.

(** A fault of the first call: its chunk is counted as failed, an error
    line is printed, the pause and the other chunks follow. *)
Example rejected_call_counts_failed :
  exists t,
    sendBatches node_argv sender_address send_ts sender_rejecting_first_call
      recipients_250 []
    = (Normal {| sent := 150; failed := 100 |}, t)
    /\ filter (fun e => negb (is_BatchSend e)) t
       = [Stderr "  Batch 1/3 ERROR: socket hang up";
          Pause 1000;
          Stdout "  Batch 2/3 sent (100/250 done)";
          Pause 1000;
          Stdout "  Batch 3/3 sent (150/250 done)"].
Proof. eexists. split; vm_compute; reflexivity. Qed.

(** ** The statements on the scenarios *)

Lemma fetchAllEmails_pages_witness :
  exists t,
    fetchAllEmails two_page_directory 5 []
    = (Normal (repeat "dev@example.com" 1000
               ++ ["ada@example.com"; "lin@example.com"]), t)
    /\ filter is_ListUsers t = [ListUsers 1 1000; ListUsers 2 1000].
Proof.
  destruct (fetchAllEmails_pages two_page_directory [full_page] short_page 5 [])
    as (t & E & Hreq & _).
  - intros [ | j] Hj; [ reflexivity | cbn in Hj; lia ].
  - repeat constructor.
  - reflexivity.
  - reflexivity.
  - apply Nat.ltb_lt. vm_compute. reflexivity.
  - cbn. lia.
  - exists t. split; [ exact E | exact Hreq ].
Defined.

Lemma refused_chunk_counted_failed_witness :
  exists c,
    fst (sendBatches node_argv sender_address send_ts
           sender_refusing_second_call recipients_250 [])
    = Normal c
    /\ failed c = 100
    /\ sent c = 150.
Proof.
  destruct (refused_chunk_counted_failed node_argv sender_address send_ts
              sender_refusing_second_call recipients_250 [] 1)
    as (c & t & line & E & _ & _ & Hfailed & Hsent).
  - reflexivity.
  - vm_compute. lia.
  - reflexivity.
  - exists c. rewrite E. split; [ reflexivity | ].
    split; [ rewrite Hfailed | rewrite Hsent ]; vm_compute; reflexivity.
Defined.

Lemma dry_run_sends_nothing_witness :
  exists t,
    sendBatches dry_run_argv sender_address send_ts accepting_sender
      recipients_250 []
    = (Normal {| sent := 250; failed := 0 |}, t)
    /\ filter is_BatchSend t = [].
Proof.
  destruct (dry_run_sends_nothing dry_run_argv sender_address send_ts
              accepting_sender recipients_250 [])
    as (t & E & Hreq & _).
  - reflexivity.
  - exists t. split; [ exact E | exact Hreq ].
Defined.

Lemma pauses_between_batches_witness :
  exists c t,
    sendBatches node_argv sender_address send_ts accepting_sender
      recipients_250 []
    = (Normal c, t)
    /\ map (@List.length string) (batches recipients_250) = [100; 100; 50]
    /\ List.length (filter is_Pause t) = 2.
Proof.
  destruct (pauses_between_batches node_argv sender_address send_ts
              accepting_sender recipients_250 [])
    as (c & t & E & _ & _ & H250).
  destruct (H250 eq_refl) as [Hbatches Hpauses].
  exists c, t. split; [ exact E | ]. split; [ exact Hbatches | exact Hpauses ].
Defined.

Lemma fetch_error_is_fatal_witness :
  exists t,
    run node_argv sender_address send_ts directory_failing_at_page_3
      accepting_sender 5
    = (Some 1,
       preamble node_argv ++ t
       ++ [StderrError "Fatal error:"
             {| message := "Supabase auth fetch failed at page 3: upstream timeout" |};
           Exit 1])
    /\ filter is_ListUsers t
       = [ListUsers 1 1000; ListUsers 2 1000; ListUsers 3 1000]
    /\ filter is_BatchSend
         (snd (run node_argv sender_address send_ts directory_failing_at_page_3
                 accepting_sender 5)) = []
    /\ ~ reports_counts
           (snd (run node_argv sender_address send_ts directory_failing_at_page_3
                   accepting_sender 5)).
Proof.
  destruct (fetch_error_is_fatal node_argv sender_address send_ts
              directory_failing_at_page_3 accepting_sender
              [full_page; full_page] failed_page
              {| error_message := "upstream timeout" |} 5)
    as (t & _ & Hreq & _ & _ & Erun & Hsend & _ & Hcounts).
  - intros [ | [ | j]] Hj; [ reflexivity | reflexivity | cbn in Hj; lia ].
  - repeat constructor.
  - reflexivity.
  - reflexivity.
  - cbn. lia.
  - exists t. split; [ exact Erun | ]. split; [ exact Hreq | ].
    split; [ exact Hsend | exact Hcounts ].
Defined.

Lemma nothing_to_send_witness :
  main node_argv sender_address send_ts empty_directory accepting_sender 1 []
  = (Normal tt,
     [Stdout "=== SENDING EMAILS ===";
      Stdout (template [nl; "1. Fetching emails from Supabase..."]);
      ListUsers 1 1000;
      Stdout (template ["   Found 0 emails"; nl]);
      Stdout "No emails found. Check your table/column names in the script."]).
Proof.
  destruct (nothing_to_send node_argv sender_address send_ts empty_directory
              accepting_sender 1 []) as [_ Hmain].
  destruct (Hmain (preamble node_argv ++ [ListUsers 1 1000]) eq_refl)
    as [Emain _].
  exact Emain.
Defined.

(** In simulation mode 250 recipients make three batches and no pause,
    where C6 as stated asks for two. *)
Lemma dry_run_makes_no_pause :
  exists c t,
    sendBatches dry_run_argv sender_address send_ts accepting_sender
      recipients_250 []
    = (Normal c, t)
    /\ List.length (batches recipients_250) = 3
    /\ List.length (filter is_Pause t) = 0
    /\ List.length (filter is_Pause t) <> List.length (batches recipients_250) - 1.
Proof.
  eexists _, _. split; [ vm_compute; reflexivity | ].
  split; [ vm_compute; reflexivity | ].
  split; [ vm_compute; reflexivity | ].
  vm_compute. discriminate.
Qed.

(** A directory without users: the fetch succeeds, no fault occurs, the
    process exits with 0, and no sent or failed count is printed, where
    C8 as stated asks for the summary. *)
Lemma empty_directory_exits_without_summary :
  run node_argv sender_address send_ts empty_directory accepting_sender 1
  = (Some 0,
     [Stdout "=== SENDING EMAILS ===";
      Stdout (template [nl; "1. Fetching emails from Supabase..."]);
      ListUsers 1 1000;
      Stdout (template ["   Found 0 emails"; nl]);
      Stdout "No emails found. Check your table/column names in the script."])
  /\ ~ reports_counts
         (snd (run node_argv sender_address send_ts empty_directory
                 accepting_sender 1)).
Proof.
  split; [ vm_compute; reflexivity | ].
  intros (count & Hin).
  assert (E : snd (run node_argv sender_address send_ts empty_directory
                     accepting_sender 1)
              = [Stdout "=== SENDING EMAILS ===";
                 Stdout (template [nl; "1. Fetching emails from Supabase..."]);
                 ListUsers 1 1000;
                 Stdout (template ["   Found 0 emails"; nl]);
                 Stdout "No emails found. Check your table/column names in the script."])
    by (vm_compute; reflexivity).
  rewrite E in Hin.
  destruct Hin as [Hin | Hin]; cbn [In] in Hin;
    repeat (destruct Hin as [Hin | Hin]; [ discriminate Hin | ]);
    exact Hin.
Qed.

(** ** What a run depends on, across command lines, senders and scripts *)

(** X13. The exit status of a run depends on the directory alone: not on
    the command line, the sender address, the script, or anything the
    sender answers.  A run in which every batch fails exits like one in
    which every batch is sent. *)
Theorem exit_status_depends_on_the_directory_only
    (argv1 argv2 : list string) (from1 from2 : string)
    (script1 script2 : Script)
    (directory : nat -> nat -> Settled ListUsersResponse)
    (sender1 sender2 : nat -> list Message -> Settled BatchResponse)
    (budget : nat) :
  fst (run argv1 from1 script1 directory sender1 budget)
  = fst (run argv2 from2 script2 directory sender2 budget).
Proof.
  rewrite !run_status. unfold fetchAllEmails.
  destruct (fetch_loop_frame directory budget 1 []
              (preamble argv1) (preamble argv2)) as (res & t & E1 & E2).
  now rewrite E1, E2.
Qed.

(** X14. In simulation mode the run never consults the sender and never
    renders the template: two simulated runs on the same directory are
    equal, whole history included, whatever the senders, the sender
    addresses and the templates (the notice for an empty directory being
    the same). *)
Theorem dry_run_ignores_sender_and_template
    (argv : list string) (from1 from2 : string) (script1 script2 : Script)
    (directory : nat -> nat -> Settled ListUsersResponse)
    (sender1 sender2 : nat -> list Message -> Settled BatchResponse)
    (budget : nat) :
  DRY_RUN argv = true ->
  no_emails_notice script1 = no_emails_notice script2 ->
  run argv from1 script1 directory sender1 budget
  = run argv from2 script2 directory sender2 budget.
Proof.
  intros Edry Enotice. unfold run. rewrite !main_after_fetch.
  destruct (fetchAllEmails directory budget (preamble argv))
    as [[emails | e | ] h]; try reflexivity.
  rewrite Enotice.
  destruct (List.length emails =? 0); [ reflexivity | ].
  now rewrite !(sendBatches_dry_run _ _ _ _ _ _ Edry).
Qed.

(** X15. The directory is read alike in every run: the page requests of
    two runs on the same directory coincide, simulation or not, whatever
    the sender answers. *)
Theorem directory_is_read_alike
    (argv1 argv2 : list string) (from1 from2 : string)
    (script1 script2 : Script)
    (directory : nat -> nat -> Settled ListUsersResponse)
    (sender1 sender2 : nat -> list Message -> Settled BatchResponse)
    (budget : nat) :
  filter is_ListUsers (snd (run argv1 from1 script1 directory sender1 budget))
  = filter is_ListUsers (snd (run argv2 from2 script2 directory sender2 budget)).
Proof.
  rewrite !run_requests. unfold fetchAllEmails.
  destruct (fetch_loop_frame directory budget 1 []
              (preamble argv1) (preamble argv2)) as (res & t & E1 & E2).
  rewrite E1, E2. cbn [snd]. rewrite !filter_app. reflexivity.
Qed.

(** X16. The counters of a simulated dispatch are those of a real
    dispatch none of whose batches is refused: all recipients sent, none
    failed. *)
Theorem dry_run_counts_like_an_accepting_sender
    (argv1 argv2 : list string) (from1 from2 : string)
    (script1 script2 : Script)
    (sender1 sender2 : nat -> list Message -> Settled BatchResponse)
    (emails : list string) (h1 h2 : History) :
  DRY_RUN argv1 = true ->
  DRY_RUN argv2 = false ->
  (forall n messages, refused (sender2 n messages) = false) ->
  fst (sendBatches argv1 from1 script1 sender1 emails h1)
  = Normal {| sent := List.length emails; failed := 0 |}
  /\ fst (sendBatches argv2 from2 script2 sender2 emails h2)
     = fst (sendBatches argv1 from1 script1 sender1 emails h1).
Proof.
  intros Edry Enormal Haccepts.
  rewrite (sendBatches_dry_run _ _ _ _ _ _ Edry).
  split; [ reflexivity | ].
  rewrite sendBatches_spec, tally_all_accepted; [ reflexivity | ].
  intros j _. unfold accepted, answer. now rewrite Enormal, Haccepts.
Qed.

(** ** The page named by a fetch error *)

Lemma string_app_inv_head (a x y : string) :
  (a ++ x)%string = (a ++ y)%string -> x = y.
Proof.
  induction a as [ | c a IH]; cbn; intros H; [ exact H | ].
  injection H as H. now apply IH.
Qed.

(** Decimal digits followed by a colon can be read back. *)
Lemma digits_then_colon (d : Decimal.uint) :
  forall d' x y,
    (NilEmpty.string_of_uint d ++ String ":" x)%string
    = (NilEmpty.string_of_uint d' ++ String ":" y)%string ->
    d = d'.
Proof.
  induction d as [ | d IH | d IH | d IH | d IH | d IH | d IH | d IH | d IH
                   | d IH | d IH ];
    intros [ | d' | d' | d' | d' | d' | d' | d' | d' | d' | d' ] x y H;
    cbn in H; try discriminate H; try reflexivity;
    injection H as H; f_equal; exact (IH _ _ _ H).
Qed.

Lemma toString_digits (n : nat) :
  toString n = NilEmpty.string_of_uint (Nat.to_uint n).
Proof.
  unfold toString, NilZero.string_of_uint.
  destruct (Nat.to_uint n) eqn:E; try reflexivity.
  exfalso. apply (DecimalFacts.unorm_nonnil (Nat.to_uint n)).
  now rewrite <- DecimalNat.Unsigned.to_of, DecimalNat.Unsigned.of_to.
Qed.

(** X17. The message of the error thrown for an error result names one
    page only, and keeps the directory's own message: two such messages
    are equal only for the same page index and the same directory
    message. *)
Theorem fetch_failure_names_one_page (p q : nat) (e e' : ServiceError) :
  message (fetch_failure p e) = message (fetch_failure q e') ->
  p = q /\ error_message e = error_message e'.
Proof.
  intros H.
  change (("Supabase auth fetch failed at page "
           ++ (toString p ++ String ":" (String " " (error_message e))))%string
          = ("Supabase auth fetch failed at page "
             ++ (toString q ++ String ":" (String " " (error_message e'))))%string)
    in H.
  apply string_app_inv_head in H.
  assert (Epq : p = q).
  { rewrite !toString_digits in H. apply digits_then_colon in H.
    now apply DecimalNat.Unsigned.to_uint_inj. }
  split; [ exact Epq | ]. subst q.
  apply string_app_inv_head in H. now injection H.
Qed.

(** ** The further properties on the scenarios *)

Lemma fetched_addresses_are_nonempty_witness :
  exists emails h,
    fetchAllEmails two_page_directory 5 [] = (Normal emails, h)
    /\ List.length emails = 1002
    /\ Forall (fun a => a <> EmptyString) emails.
Proof.
  eexists _, _. split; [ vm_compute; reflexivity | ].
  split; [ vm_compute; reflexivity | ].
  eapply (fetched_addresses_are_nonempty two_page_directory 5 []).
  vm_compute. reflexivity.
Defined.

Lemma fetch_fault_is_fatal_witness :
  exists t,
    run node_argv sender_address send_ts directory_rejecting_page_2
      accepting_sender 5
    = (Some 1,
       preamble node_argv ++ t
       ++ [StderrError "Fatal error:" {| message := "fetch failed" |}; Exit 1])
    /\ filter is_ListUsers t = [ListUsers 1 1000; ListUsers 2 1000].
Proof.
  destruct (fetch_fault_is_fatal node_argv sender_address send_ts
              directory_rejecting_page_2 accepting_sender
              [full_page] full_page {| message := "fetch failed" |} 5)
    as (t & _ & Hreq & Erun & _).
  - intros [ | j] Hj; [ reflexivity | cbn in Hj; lia ].
  - repeat constructor.
  - reflexivity.
  - cbn. lia.
  - exists t. split; [ exact Erun | exact Hreq ].
Defined.

Lemma fetch_never_returns_on_full_pages_witness :
  exists t,
    run node_argv sender_address send_ts endless_directory accepting_sender 3
    = (None, preamble node_argv ++ t)
    /\ filter is_ListUsers t
       = [ListUsers 1 1000; ListUsers 2 1000; ListUsers 3 1000].
Proof.
  destruct (fetch_never_returns_on_full_pages node_argv sender_address send_ts
              endless_directory accepting_sender 3)
    as (t & _ & Hreq & Erun & _).
  - intros p _. exists full_page. repeat constructor.
  - exists t. split; [ exact Erun | exact Hreq ].
Defined.

Lemma every_recipient_is_mailed_once_witness :
  exists c t,
    sendBatches node_argv sender_address send_ts sender_refusing_second_call
      recipients_250 []
    = (Normal c, t)
    /\ map to (flat_map submitted t) = recipients_250.
Proof.
  destruct (every_recipient_is_mailed_once node_argv sender_address send_ts
              sender_refusing_second_call recipients_250 [])
    as (c & t & E & _ & Hto).
  - reflexivity.
  - exists c, t. split; [ exact E | exact Hto ].
Defined.

Lemma failed_batches_are_logged_witness :
  exists c t,
    sendBatches node_argv sender_address send_ts sender_refusing_second_call
      recipients_250 []
    = (Normal c, t)
    /\ List.length (filter is_Stderr t) = 1
    /\ failed c <> 0.
Proof.
  destruct (failed_batches_are_logged node_argv sender_address send_ts
              sender_refusing_second_call recipients_250 [])
    as (c & t & E & Hcount & Hzero & _).
  - reflexivity.
  - exists c, t. split; [ exact E | ].
    assert (H1 : List.length (filter is_Stderr t) = 1)
      by (rewrite Hcount; vm_compute; reflexivity).
    split; [ exact H1 | ].
    intros Hf. apply Hzero in Hf. rewrite Hf in H1. discriminate H1.
Defined.

Lemma recipient_position_witness :
  nth (137 mod 100) (nth (137 / 100) (batches recipients_250) []) EmptyString
  = nth 137 recipients_250 EmptyString.
Proof.
  apply (recipient_position recipients_250 137 EmptyString).
  vm_compute. lia.
Defined.

Lemma batches_app_witness :
  batches (repeat "dev@example.com" 100 ++ ["ada@example.com"])
  = batches (repeat "dev@example.com" 100) ++ batches ["ada@example.com"].
Proof.
  apply (batches_app (repeat "dev@example.com" 100) ["ada@example.com"] 1).
  reflexivity.
Defined.

Lemma dry_run_ignores_sender_and_template_witness :
  run dry_run_argv sender_address send_followup_ts small_directory
    accepting_sender 3
  = run dry_run_argv "other@example.com" send_launch_ts small_directory
      refusing_sender 3.
Proof.
  apply (dry_run_ignores_sender_and_template dry_run_argv sender_address
           "other@example.com" send_followup_ts send_launch_ts small_directory
           accepting_sender refusing_sender 3);
    reflexivity.
Defined.

Lemma dry_run_counts_like_an_accepting_sender_witness :
  fst (sendBatches node_argv sender_address send_ts accepting_sender
         recipients_250 [])
  = fst (sendBatches dry_run_argv sender_address send_ts refusing_sender
           recipients_250 []).
Proof.
  apply (dry_run_counts_like_an_accepting_sender dry_run_argv node_argv
           sender_address sender_address send_ts send_ts
           refusing_sender accepting_sender recipients_250 [] []);
    reflexivity.
Defined.

Lemma fetch_failure_names_one_page_witness :
  3 = 3 /\ "upstream timeout" = "upstream timeout".
Proof.
  apply (fetch_failure_names_one_page 3 3
           {| error_message := "upstream timeout" |}
           {| error_message := "upstream timeout" |}).
  reflexivity.
Defined.

Lemma run_mails_what_it_fetched_witness :
  flat_map submitted
    (snd (run node_argv sender_address send_followup_ts small_directory
            refusing_sender 3))
  = map (buildEmail sender_address send_followup_ts)
        ["ada@example.com"; "lin@example.com"]
  /\ fst (run node_argv sender_address send_followup_ts small_directory
            refusing_sender 3) = Some 0.
Proof.
  eapply (run_mails_what_it_fetched node_argv sender_address send_followup_ts
            small_directory refusing_sender 3).
  - reflexivity.
  - vm_compute. reflexivity.
Defined.
